(** * The macOS media-control bridge of stmps (remote/mpmedia_mac.go)

    A shallow embedding of the Go side of the bridge between the system
    media command center and the player: the exported command callback,
    the seven [OnCommand...] handlers, [RegisterMPMediaHandler] with the
    five listeners it attaches, and [updateMetadata].

    Go code is embedded in a state-and-panic monad over a [World] holding
    the Go heap of handlers, the package-level recipient pointer, the C
    allocations made through cgo, the player's listener lists and an
    ordered trace of every observable effect (player calls, logger calls,
    calls of the native adapter). *)

From Stdlib Require Import ZArith List String Ascii Bool Lia.
From Stdlib Require Import Strings.Byte.
From Stdlib Require Import Floats.SpecFloat.
Import ListNotations.

Set Implicit Arguments.

(** ** Go values *)

(** [float64] and [C.double] are both IEEE 754 binary64; the conversions
    [float64(value)] and [C.double(x)] between them are the identity. *)
Definition float64 : Type := spec_float.

(** [C.double(n)] for a Go [int] [n]: round to nearest, ties to even. *)
Definition double_of_int (n : Z) : float64 := binary_normalize 53 1024 n 0 false.

(** A Go [error] interface value: [None] is [nil], [Some msg] a failure. *)
Definition error : Type := option string.

(** A pointer to a handler on the Go heap; a [*MPMediaHandler] that may be
    nil is an [option ptr]. *)
Definition ptr : Type := nat.

(** A pointer into C memory, as returned by [C.CString]. *)
Definition cptr : Type := nat.

(** [C.CString(s)]: the bytes of [s] followed by the terminating NUL. *)
Definition CString_bytes (s : string) : list byte :=
  list_byte_of_string s ++ [x00].

(** ** Collaborators of the bridge *)

(** Modelled from the spec: the [TrackInterface] capability set of section 6
    ([IsValid], [GetTitle], [GetArtist], [GetDuration]); its declaration is
    not part of the sources.  The getters are pure; an interface value that
    may be nil is an [option Track]. *)
Record Track : Type := {
  IsValid : bool;
  GetTitle : string;
  GetArtist : string;
  GetDuration : Z
}.

Definition TrackInterface : Type := option Track.

(** The two kinds of function literals handed to the player: the one
    listener of type [func(track TrackInterface)] and the four of type
    [func()].  Each literal closes over the handler pointer [mp]. *)
Inductive TrackFunc : Type :=
| FnSongChange (mp : ptr).

Inductive PlainFunc : Type :=
| FnStopped (mp : ptr)
| FnSeek (mp : ptr)
| FnPlaying (mp : ptr)
| FnPaused (mp : ptr).

(** A listener together with the event list of the player it sits on. *)
Inductive Listener : Type :=
| LSongChange (f : TrackFunc)
| LStopped (f : PlainFunc)
| LSeek (f : PlainFunc)
| LPlaying (f : PlainFunc)
| LPaused (f : PlainFunc).

(** The lifecycle events a player emits. *)
Inductive PlayerEvent : Type :=
| SongChange (track : TrackInterface)
| Stopped
| Seek
| Playing
| Paused.

(** Method calls made on a player, as they appear in the trace. *)
Inductive PlayerCall : Type :=
| CallPlay
| CallPause
| CallStop
| CallNextTrack
| CallPreviousTrack
| CallSeekAbsolute (seconds : float64)
| CallGetTimePos
| CallSubscribe (l : Listener).

(** Calls made on a [logger.LoggerInterface]. *)
Inductive LoggerCall : Type :=
| Print (s : string)
| PrintError (source : string) (err : string).

(** Calls into the native adapter declared in mpmediabridge.h.  String
    arguments are recorded by the bytes the C pointers refer to at the
    time of the call. *)
Inductive NativeCall : Type :=
| register_os_remote_commands
| set_os_playback_state_stopped
| set_os_playback_state_playing
| set_os_playback_state_paused
| update_os_now_playing_info_position (position : float64)
| set_os_now_playing_info (title artist artURL : list byte) (duration : float64).

(** Everything the bridge does that an outside observer can see, in
    program order. *)
Inductive Effect : Type :=
| EStoreRecipient (mp : ptr)
| EPlayer (player_id : nat) (c : PlayerCall)
| ELogger (logger_id : nat) (c : LoggerCall)
| EStdLog (format : string) (arg : Z)
| ENative (c : NativeCall).

(** Modelled from the spec: the command codes of the C enum [Command]
    (header mpmediabridge.h is not part of the sources); section 6 names
    them PLAY, PAUSE, STOP, TOGGLE, PREVIOUS_TRACK, NEXT_TRACK and SEEK.
    Their numeric values are left open. *)
Record CommandCodes : Type := {
  PLAY : Z;
  PAUSE : Z;
  STOP : Z;
  TOGGLE : Z;
  PREVIOUS_TRACK : Z;
  NEXT_TRACK : Z;
  SEEK : Z
}.

Definition codes (hdr : CommandCodes) : list Z :=
  [PLAY hdr; PAUSE hdr; STOP hdr; TOGGLE hdr;
   PREVIOUS_TRACK hdr; NEXT_TRACK hdr; SEEK hdr].

(** The artwork reference written into [updateMetadata]. *)
Definition placeholder_artwork : string :=
  "https://support.apple.com/library/content/dam/edam/applecare/images/en_US/osx/mac-apple-logo-screen-icon.png".

Section Bridge.

(** The state owned by the player and everything behind it.  The bridge
    never looks into it; it only changes through the player's methods. *)
Context {PS : Type}.

(** Modelled from the spec: the [ControlledPlayer] capability set of
    section 6 (the interface declaration and the player are not part of the
    sources).  A method takes the player state and returns its result with
    the new state; [pid] tells players apart in the trace and in the
    listener lists. *)
Record ControlledPlayerImpl : Type := {
  pid : nat;
  Play : PS -> error * PS;
  Pause : PS -> error * PS;
  Stop : PS -> error * PS;
  NextTrack : PS -> error * PS;
  PreviousTrack : PS -> error * PS;
  SeekAbsolute : float64 -> PS -> error * PS;
  GetTimePos : PS -> float64 * PS
}.

(** Interface values: [None] is the nil interface. *)
Definition ControlledPlayer : Type := option ControlledPlayerImpl.

(** Modelled from the spec: [logger.LoggerInterface] (package logger is
    not part of the sources).  The bridge only calls [Print] and
    [PrintError] on it; a logger is known by a number and its calls go to
    the trace. *)
Definition LoggerInterface : Type := option nat.

(** [type MPMediaHandler struct { player; logger }] *)
Record MPMediaHandler : Type := {
  player : ControlledPlayer;
  logger : LoggerInterface
}.

(** ** The world *)

Record World : Type := {
  heap : list MPMediaHandler;
  mpMediaEventRecipient : option ptr;
  cmem : list (option (list byte));
  listeners : list (nat * Listener);
  pstate : PS;
  os_accepts : bool;
  os_delivers : bool;
  trace : list Effect
}.

Definition set_heap (hp : list MPMediaHandler) (w : World) : World :=
  {| heap := hp; mpMediaEventRecipient := mpMediaEventRecipient w;
     cmem := cmem w; listeners := listeners w; pstate := pstate w;
     os_accepts := os_accepts w; os_delivers := os_delivers w;
     trace := trace w |}.

Definition set_recipient (r : option ptr) (w : World) : World :=
  {| heap := heap w; mpMediaEventRecipient := r;
     cmem := cmem w; listeners := listeners w; pstate := pstate w;
     os_accepts := os_accepts w; os_delivers := os_delivers w;
     trace := trace w |}.

Definition set_cmem (m : list (option (list byte))) (w : World) : World :=
  {| heap := heap w; mpMediaEventRecipient := mpMediaEventRecipient w;
     cmem := m; listeners := listeners w; pstate := pstate w;
     os_accepts := os_accepts w; os_delivers := os_delivers w;
     trace := trace w |}.

Definition set_listeners (ls : list (nat * Listener)) (w : World) : World :=
  {| heap := heap w; mpMediaEventRecipient := mpMediaEventRecipient w;
     cmem := cmem w; listeners := ls; pstate := pstate w;
     os_accepts := os_accepts w; os_delivers := os_delivers w;
     trace := trace w |}.

Definition set_pstate (s : PS) (w : World) : World :=
  {| heap := heap w; mpMediaEventRecipient := mpMediaEventRecipient w;
     cmem := cmem w; listeners := listeners w; pstate := s;
     os_accepts := os_accepts w; os_delivers := os_delivers w;
     trace := trace w |}.

Definition set_os_delivers (b : bool) (w : World) : World :=
  {| heap := heap w; mpMediaEventRecipient := mpMediaEventRecipient w;
     cmem := cmem w; listeners := listeners w; pstate := pstate w;
     os_accepts := os_accepts w; os_delivers := b;
     trace := trace w |}.

Definition log_effect (e : Effect) (w : World) : World :=
  {| heap := heap w; mpMediaEventRecipient := mpMediaEventRecipient w;
     cmem := cmem w; listeners := listeners w; pstate := pstate w;
     os_accepts := os_accepts w; os_delivers := os_delivers w;
     trace := trace w ++ [e] |}.

(** ** The monad: state, and a Go panic that ends the computation *)

Inductive Res (A : Type) : Type :=
| Ok (a : A) (w : World)
| Panic (w : World).

Arguments Panic {A} w.

Definition M (A : Type) : Type := World -> Res A.

Definition ret {A : Type} (a : A) : M A := fun w => Ok a w.

Definition bind {A B : Type} (m : M A) (k : A -> M B) : M B :=
  fun w => match m w with
           | Ok a w' => k a w'
           | Panic w' => Panic w'
           end.

Definition panic {A : Type} : M A := fun w => Panic w.

(** The world a computation ends in, whether it returned or panicked. *)
Definition final {A : Type} (r : Res A) : World :=
  match r with
  | Ok _ w => w
  | Panic w => w
  end.

Definition returned {A : Type} (r : Res A) : bool :=
  match r with
  | Ok _ _ => true
  | Panic _ => false
  end.

End Bridge.

Arguments ControlledPlayerImpl PS : clear implicits.
Arguments ControlledPlayer PS : clear implicits.
Arguments MPMediaHandler PS : clear implicits.
Arguments World PS : clear implicits.
Arguments Res PS A : clear implicits.
Arguments M PS A : clear implicits.
Arguments Ok {PS A} a w.
Arguments Panic {PS A} w.

Declare Scope go_scope.
Delimit Scope go_scope with go.
Notation "x <- m ;; k" := (bind m (fun x => k))
  (at level 61, m at next level, right associativity) : go_scope.
Notation "m ;; k" := (bind m (fun _ => k))
  (at level 61, right associativity) : go_scope.
Open Scope go_scope.

(** ** Primitive actions *)

Section Actions.

Context {PS : Type}.

Local Abbreviation World := (World PS).
Local Abbreviation M := (M PS).
Local Abbreviation ControlledPlayer := (ControlledPlayer PS).
Local Abbreviation ControlledPlayerImpl := (ControlledPlayerImpl PS).
Local Abbreviation MPMediaHandler := (MPMediaHandler PS).

Definition effect (e : Effect) : M unit :=
  fun w => Ok tt (log_effect e w).

(** Reading the package-level variable [mpMediaEventRecipient]. *)
Definition load_recipient : M (option ptr) :=
  fun w => Ok (mpMediaEventRecipient w) w.

(** [mpMediaEventRecipient = mp] *)
Definition store_recipient (mp : ptr) : M unit :=
  fun w => Ok tt (log_effect (EStoreRecipient mp) (set_recipient (Some mp) w)).

(** [&MPMediaHandler{...}]: a new cell at the end of the heap. *)
Definition new_handler (h : MPMediaHandler) : M ptr :=
  fun w => Ok (List.length (heap w)) (set_heap (heap w ++ [h]) w).

(** Reading through a non-nil handler pointer. *)
Definition deref (mp : ptr) : M MPMediaHandler :=
  fun w => match nth_error (heap w) mp with
           | Some h => Ok h w
           | None => Panic w
           end.

(** A method call on a player that is known not to be nil: the call is
    recorded, the method runs on the player state. *)
Definition invoke {A : Type} (p : ControlledPlayerImpl) (c : PlayerCall)
    (method : PS -> A * PS) : M A :=
  fun w => let (a, s) := method (pstate w) in
           Ok a (set_pstate s (log_effect (EPlayer (pid p) c) w)).

(** Method calls through interface values; on the nil interface the Go
    runtime panics. *)
Definition logger_Print (l : LoggerInterface) (s : string) : M unit :=
  match l with
  | Some lg => effect (ELogger lg (Print s))
  | None => panic
  end.

Definition logger_PrintError (l : LoggerInterface) (source err : string) : M unit :=
  match l with
  | Some lg => effect (ELogger lg (PrintError source err))
  | None => panic
  end.

Definition player_GetTimePos (pl : ControlledPlayer) : M float64 :=
  match pl with
  | Some p => invoke p CallGetTimePos (GetTimePos p)
  | None => panic
  end.

(** Modelled from the spec: the player keeps, per kind of event, the list
    of listeners in the order they were attached (sections 4.3 and 9); the
    player itself is not part of the sources.  The lists of all players
    are kept in [listeners], each entry under the [pid] of its player. *)
Definition subscribe (pl : ControlledPlayer) (l : Listener) : M unit :=
  match pl with
  | Some p =>
      fun w => Ok tt (set_listeners (listeners w ++ [(pid p, l)])
                        (log_effect (EPlayer (pid p) (CallSubscribe l)) w))
  | None => panic
  end.

Definition player_OnSongChange (pl : ControlledPlayer) (f : TrackFunc) : M unit :=
  subscribe pl (LSongChange f).
Definition player_OnStopped (pl : ControlledPlayer) (f : PlainFunc) : M unit :=
  subscribe pl (LStopped f).
Definition player_OnSeek (pl : ControlledPlayer) (f : PlainFunc) : M unit :=
  subscribe pl (LSeek f).
Definition player_OnPlaying (pl : ControlledPlayer) (f : PlainFunc) : M unit :=
  subscribe pl (LPlaying f).
Definition player_OnPaused (pl : ControlledPlayer) (f : PlainFunc) : M unit :=
  subscribe pl (LPaused f).

(** [log.Printf(format, arg)] of the standard library's default logger. *)
Definition log_Printf (format : string) (arg : Z) : M unit :=
  effect (EStdLog format arg).

(** *** C memory *)

(** [C.CString(s)] allocates a fresh block holding [s] and a NUL. *)
Definition C_CString (s : string) : M cptr :=
  fun w => Ok (List.length (cmem w)) (set_cmem (cmem w ++ [Some (CString_bytes s)]) w).

Fixpoint release (m : list (option (list byte))) (p : cptr) : list (option (list byte)) :=
  match m, p with
  | [], _ => []
  | _ :: rest, O => None :: rest
  | b :: rest, S p' => b :: release rest p'
  end.

(** [C.free(unsafe.Pointer(p))] *)
Definition C_free (p : cptr) : M unit :=
  fun w => Ok tt (set_cmem (release (cmem w) p) w).

(** What the native side finds behind a [char*] argument; reading a block
    that is not live is a fault. *)
Definition C_read (p : cptr) : M (list byte) :=
  fun w => match nth_error (cmem w) p with
           | Some (Some bs) => Ok bs w
           | _ => Panic w
           end.

(** The blocks of C memory still allocated. *)
Definition live_blocks (w : World) : list (list byte) :=
  flat_map (fun b => match b with Some bs => [bs] | None => [] end) (cmem w).

(** *** The native adapter *)

Definition native (c : NativeCall) : M unit := effect (ENative c).

(** Modelled from the spec: [register_remote_commands() -> none] of
    section 6; the Objective-C side is not part of the sources.  Whether
    the system accepts the registration is a fact of the environment
    ([os_accepts]); when it does, commands are delivered from then on.
    The C function returns nothing. *)
Definition C_register_os_remote_commands : M unit :=
  fun w => Ok tt (set_os_delivers (os_accepts w)
                    (log_effect (ENative register_os_remote_commands) w)).

Definition C_set_os_now_playing_info (cTitle cArtist cArtURL : cptr)
    (cTrackDuration : float64) : M unit :=
  title <- C_read cTitle ;;
  artist <- C_read cArtist ;;
  art <- C_read cArtURL ;;
  native (set_os_now_playing_info title artist art cTrackDuration).

(** ** The bridge *)

(** [func (mp *MPMediaHandler) updateMetadata(track TrackInterface)].
    The deferred [C.free] calls run when the function returns, last
    deferred first. *)
Definition updateMetadata (mp : ptr) (track : TrackInterface) : M unit :=
  let '(title, artist, duration) :=
    match track with
    | Some t =>
        if IsValid t then (GetTitle t, GetArtist t, GetDuration t)
        else (EmptyString, EmptyString, 0%Z)
    | None => (EmptyString, EmptyString, 0%Z)
    end in
  cTitle <- C_CString title ;;
  cArtist <- C_CString artist ;;
  cArtURL <- C_CString placeholder_artwork ;;
  let cTrackDuration := double_of_int duration in
  C_set_os_now_playing_info cTitle cArtist cArtURL cTrackDuration ;;
  C_free cArtURL ;;
  C_free cArtist ;;
  C_free cTitle.

(** *** Handlers of incoming commands

    The receiver is a [*MPMediaHandler] that may be nil. *)

Definition OnCommandPause (mp : option ptr) : M unit :=
  match mp with
  | None => ret tt
  | Some a =>
      h <- deref a ;;
      match player h with
      | None => ret tt
      | Some p =>
          err <- invoke p CallPause (Pause p) ;;
          match err with
          | Some e => logger_PrintError (logger h) "Pause" e
          | None => ret tt
          end
      end
  end.

Definition OnCommandPlay (mp : option ptr) : M unit :=
  match mp with
  | None => ret tt
  | Some a =>
      h <- deref a ;;
      match player h with
      | None => ret tt
      | Some p =>
          err <- invoke p CallPlay (Play p) ;;
          match err with
          | Some e => logger_PrintError (logger h) "Play" e
          | None => ret tt
          end
      end
  end.

Definition OnCommandStop (mp : option ptr) : M unit :=
  match mp with
  | None => ret tt
  | Some a =>
      h <- deref a ;;
      match player h with
      | None => ret tt
      | Some p =>
          err <- invoke p CallStop (Stop p) ;;
          match err with
          | Some e => logger_PrintError (logger h) "Stop" e
          | None => ret tt
          end
      end
  end.

Definition OnCommandTogglePlayPause (mp : option ptr) : M unit :=
  match mp with
  | None => ret tt
  | Some a =>
      h <- deref a ;;
      match player h with
      | None => ret tt
      | Some p =>
          err <- invoke p CallPause (Pause p) ;;
          match err with
          | Some e => logger_PrintError (logger h) "Pause" e
          | None => ret tt
          end
      end
  end.

Definition OnCommandNextTrack (mp : option ptr) : M unit :=
  match mp with
  | None => ret tt
  | Some a =>
      h <- deref a ;;
      match player h with
      | None => ret tt
      | Some p =>
          err <- invoke p CallNextTrack (NextTrack p) ;;
          match err with
          | Some e => logger_PrintError (logger h) "NextTrack" e
          | None => ret tt
          end
      end
  end.

Definition OnCommandPreviousTrack (mp : option ptr) : M unit :=
  match mp with
  | None => ret tt
  | Some a =>
      h <- deref a ;;
      match player h with
      | None => ret tt
      | Some p =>
          err <- invoke p CallPreviousTrack (PreviousTrack p) ;;
          match err with
          | Some e => logger_PrintError (logger h) "PreviousTrack" e
          | None => ret tt
          end
      end
  end.

Definition OnCommandSeek (mp : option ptr) (positionSeconds : float64) : M unit :=
  match mp with
  | None => ret tt
  | Some a =>
      h <- deref a ;;
      match player h with
      | None => ret tt
      | Some p =>
          err <- invoke p (CallSeekAbsolute positionSeconds)
                   (SeekAbsolute p positionSeconds) ;;
          match err with
          | Some e => logger_PrintError (logger h) "SeekAbsolute" e
          | None => ret tt
          end
      end
  end.

(** *** The exported callback

    A Go [switch] takes the first case equal to the tag. *)

Variable hdr : CommandCodes.

Definition os_remote_command_callback (command : Z) (value : float64) : M unit :=
  if (command =? PLAY hdr)%Z then
    mp <- load_recipient ;; OnCommandPlay mp
  else if (command =? PAUSE hdr)%Z then
    mp <- load_recipient ;; OnCommandPause mp
  else if (command =? STOP hdr)%Z then
    mp <- load_recipient ;; OnCommandStop mp
  else if (command =? TOGGLE hdr)%Z then
    mp <- load_recipient ;; OnCommandTogglePlayPause mp
  else if (command =? PREVIOUS_TRACK hdr)%Z then
    mp <- load_recipient ;; OnCommandPreviousTrack mp
  else if (command =? NEXT_TRACK hdr)%Z then
    mp <- load_recipient ;; OnCommandNextTrack mp
  else if (command =? SEEK hdr)%Z then
    mp <- load_recipient ;; OnCommandSeek mp value
  else
    log_Printf "unknown OS command received: %v" command.

(** *** The listeners: the bodies of the five function literals *)

Definition call_TrackFunc (f : TrackFunc) (track : TrackInterface) : M unit :=
  match f with
  | FnSongChange mp =>
      h <- deref mp ;;
      logger_Print (logger h) "OnSongChange" ;;
      updateMetadata mp track
  end.

Definition call_PlainFunc (f : PlainFunc) : M unit :=
  match f with
  | FnStopped mp =>
      h <- deref mp ;;
      logger_Print (logger h) "OnStopped" ;;
      native set_os_playback_state_stopped
  | FnSeek mp =>
      h <- deref mp ;;
      logger_Print (logger h) "OnSeek" ;;
      pos <- player_GetTimePos (player h) ;;
      native (update_os_now_playing_info_position pos)
  | FnPlaying mp =>
      h <- deref mp ;;
      logger_Print (logger h) "OnPlaying" ;;
      native set_os_playback_state_playing ;;
      pos <- player_GetTimePos (player h) ;;
      native (update_os_now_playing_info_position pos)
  | FnPaused mp =>
      h <- deref mp ;;
      logger_Print (logger h) "OnPaused" ;;
      native set_os_playback_state_paused ;;
      pos <- player_GetTimePos (player h) ;;
      native (update_os_now_playing_info_position pos)
  end.

(** *** Registration *)

Definition RegisterMPMediaHandler (player_ : ControlledPlayer)
    (logger_ : LoggerInterface) : M error :=
  mp <- new_handler {| player := player_; logger := logger_ |} ;;
  store_recipient mp ;;
  C_register_os_remote_commands ;;
  h <- deref mp ;; player_OnSongChange (player h) (FnSongChange mp) ;;
  h <- deref mp ;; player_OnStopped (player h) (FnStopped mp) ;;
  h <- deref mp ;; player_OnSeek (player h) (FnSeek mp) ;;
  h <- deref mp ;; player_OnPlaying (player h) (FnPlaying mp) ;;
  h <- deref mp ;; player_OnPaused (player h) (FnPaused mp) ;;
  ret None.

(** ** The player emitting an event *)

Definition notify (ev : PlayerEvent) (l : Listener) : M unit :=
  match ev, l with
  | SongChange track, LSongChange f => call_TrackFunc f track
  | Stopped, LStopped f => call_PlainFunc f
  | Seek, LSeek f => call_PlainFunc f
  | Playing, LPlaying f => call_PlainFunc f
  | Paused, LPaused f => call_PlainFunc f
  | _, _ => ret tt
  end.

Fixpoint notify_all (ev : PlayerEvent) (ls : list Listener) : M unit :=
  match ls with
  | [] => ret tt
  | l :: rest => notify ev l ;; notify_all ev rest
  end.

Definition listeners_of (p : nat) (ls : list (nat * Listener)) : list Listener :=
  map snd (filter (fun e => Nat.eqb (fst e) p) ls).

(** Modelled from the spec: a lifecycle event is published to the
    listeners attached for it, which run one after the other on the
    player's calling context (sections 4.3 and 9). *)
Definition emit (p : nat) (ev : PlayerEvent) : M unit :=
  fun w => notify_all ev (listeners_of p (listeners w)) w.

End Actions.

(** ** Observations on traces *)

(** The effects a computation added to the trace of the world it started
    in. *)
Definition since {PS : Type} (w w' : World PS) : list Effect :=
  skipn (List.length (trace w)) (trace w').

Fixpoint collect {A B : Type} (f : A -> option B) (l : list A) : list B :=
  match l with
  | [] => []
  | x :: rest =>
      match f x with
      | Some y => y :: collect f rest
      | None => collect f rest
      end
  end.

(** The method invocations on players, each with the player it went to. *)
Definition player_calls (t : list Effect) : list (nat * PlayerCall) :=
  collect (fun e => match e with EPlayer p c => Some (p, c) | _ => None end) t.

(** Log entries, through a bridge logger or through the standard [log]
    package. *)
Definition log_entries (t : list Effect) : list Effect :=
  filter (fun e => match e with
                   | ELogger _ _ | EStdLog _ _ => true
                   | _ => false
                   end) t.

Definition native_calls (t : list Effect) : list NativeCall :=
  collect (fun e => match e with ENative c => Some c | _ => None end) t.

Definition recipient_stores (t : list Effect) : list ptr :=
  collect (fun e => match e with EStoreRecipient mp => Some mp | _ => None end) t.

(** The native calls that set the playback state. *)
Definition is_state_setter (c : NativeCall) : bool :=
  match c with
  | set_os_playback_state_stopped
  | set_os_playback_state_playing
  | set_os_playback_state_paused => true
  | _ => false
  end.

(** ** Concrete players, loggers and worlds *)

Module Sample.

(** The enumerators of [Command] numbered in the order section 6 lists
    them. *)
Definition std_codes : CommandCodes :=
  {| PLAY := 0; PAUSE := 1; STOP := 2; TOGGLE := 3;
     PREVIOUS_TRACK := 4; NEXT_TRACK := 5; SEEK := 6 |}.

(** A player whose state counts the control calls it served and whose
    position is 42 seconds. *)
Definition good_player : ControlledPlayerImpl nat :=
  {| pid := 7;
     Play := fun n => (None, S n);
     Pause := fun n => (None, S n);
     Stop := fun n => (None, S n);
     NextTrack := fun n => (None, S n);
     PreviousTrack := fun n => (None, S n);
     SeekAbsolute := fun _ n => (None, S n);
     GetTimePos := fun n => (double_of_int 42, n) |}.

Definition no_connection : string := "mpv: no connection".

(** A player whose control methods all fail. *)
Definition broken_player : ControlledPlayerImpl nat :=
  {| pid := 8;
     Play := fun n => (Some no_connection, S n);
     Pause := fun n => (Some no_connection, S n);
     Stop := fun n => (Some no_connection, S n);
     NextTrack := fun n => (Some no_connection, S n);
     PreviousTrack := fun n => (Some no_connection, S n);
     SeekAbsolute := fun _ n => (Some no_connection, S n);
     GetTimePos := fun n => (double_of_int 0, n) |}.

Definition main_logger : nat := 1.

(** The process before any registration. *)
Definition boot (accepts : bool) : World nat :=
  {| heap := []; mpMediaEventRecipient := None; cmem := [];
     listeners := []; pstate := 0; os_accepts := accepts;
     os_delivers := false; trace := [] |}.

Definition registered_good : World nat :=
  final (RegisterMPMediaHandler (Some good_player) (Some main_logger) (boot true)).

Definition registered_broken : World nat :=
  final (RegisterMPMediaHandler (Some broken_player) (Some main_logger) (boot true)).

(** A registration that passes no logger. *)
Definition registered_mute : World nat :=
  final (RegisterMPMediaHandler (Some broken_player) None (boot true)).

(** The handler cells the first two registrations create. *)
Definition good_handler : MPMediaHandler nat :=
  {| player := Some good_player; logger := Some main_logger |}.

Definition broken_handler : MPMediaHandler nat :=
  {| player := Some broken_player; logger := Some main_logger |}.

(** 42.5 seconds. *)
Definition seconds_42_5 : float64 := binary_normalize 53 1024 85 (-1) false.

Definition track_AB : Track :=
  {| IsValid := true; GetTitle := "A"; GetArtist := "B"; GetDuration := 180 |}.

End Sample.

(** ** Vocabulary of the statements *)

Section Vocabulary.

Context {PS : Type}.
Variable hdr : CommandCodes.

(** The translation table of the command translator: which control method
    a command code stands for, and under which operation name a failure of
    that method is reported.  The toggle command stands for [Pause]. *)
Inductive command_maps_to (p : ControlledPlayerImpl PS) (v : float64) :
    Z -> PlayerCall -> (PS -> error * PS) -> string -> Prop :=
| maps_play : command_maps_to p v (PLAY hdr) CallPlay (Play p) "Play"
| maps_pause : command_maps_to p v (PAUSE hdr) CallPause (Pause p) "Pause"
| maps_stop : command_maps_to p v (STOP hdr) CallStop (Stop p) "Stop"
| maps_toggle : command_maps_to p v (TOGGLE hdr) CallPause (Pause p) "Pause"
| maps_previous :
    command_maps_to p v (PREVIOUS_TRACK hdr) CallPreviousTrack
      (PreviousTrack p) "PreviousTrack"
| maps_next :
    command_maps_to p v (NEXT_TRACK hdr) CallNextTrack (NextTrack p) "NextTrack"
| maps_seek :
    command_maps_to p v (SEEK hdr) (CallSeekAbsolute v) (SeekAbsolute p v)
      "SeekAbsolute".

(** A world in which the recipient slot refers to handler [h] at address
    [a] and [h] has the player [p]. *)
Definition recipient_is (w : World PS) (a : ptr) (h : MPMediaHandler PS)
    (p : ControlledPlayerImpl PS) : Prop :=
  mpMediaEventRecipient w = Some a /\
  nth_error (heap w) a = Some h /\
  player h = Some p.

(** What one guarded control call amounts to: the call is recorded and
    run; a failure goes to the handler's logger. *)
Definition control_step (h : MPMediaHandler PS) (p : ControlledPlayerImpl PS)
    (call : PlayerCall) (method : PS -> error * PS) (name : string)
    (w : World PS) : Res PS unit :=
  let w1 := set_pstate (snd (method (pstate w)))
              (log_effect (EPlayer (pid p) call) w) in
  match fst (method (pstate w)) with
  | None => Ok tt w1
  | Some e =>
      match logger h with
      | Some lg => Ok tt (log_effect (ELogger lg (PrintError name e)) w1)
      | None => Panic w1
      end
  end.

End Vocabulary.

(** The property of C1 at one delivery, without regard to the recipient
    slot: exactly one control method is invoked. *)
Definition invokes_exactly_one {PS : Type} (hdr : CommandCodes)
    (c : Z) (v : float64) (w : World PS) : Prop :=
  exists pc,
    player_calls (since w (final (os_remote_command_callback hdr c v w))) = [pc].

(** The recipient slot is empty, or refers to a handler that has a logger
    whenever it has a player. *)
Definition recipient_ok {PS : Type} (w : World PS) : Prop :=
  match mpMediaEventRecipient w with
  | None => True
  | Some a =>
      exists h, nth_error (heap w) a = Some h /\
                (player h = None \/ logger h <> None)
  end.

(** The five listeners [RegisterMPMediaHandler] attaches for the handler
    at [mp], in the order it attaches them. *)
Definition bridge_listeners (mp : ptr) : list Listener :=
  [LSongChange (FnSongChange mp); LStopped (FnStopped mp); LSeek (FnSeek mp);
   LPlaying (FnPlaying mp); LPaused (FnPaused mp)].

(** The bridge at [mp], made for player [p] with logger [lg], is the one
    listening to [p]. *)
Definition attached {PS : Type} (w : World PS) (mp : ptr)
    (p : ControlledPlayerImpl PS) (lg : nat) : Prop :=
  nth_error (heap w) mp = Some {| player := Some p; logger := Some lg |} /\
  listeners_of (pid p) (listeners w) = bridge_listeners mp.

(** The metadata record as the specification describes it: title, artist
    and duration of a present, valid track, or empty, empty and zero; the
    artwork is the placeholder in either case. *)
Definition resolved_info (track : TrackInterface) : NativeCall :=
  match track with
  | Some t =>
      if IsValid t then
        set_os_now_playing_info (CString_bytes (GetTitle t))
          (CString_bytes (GetArtist t)) (CString_bytes placeholder_artwork)
          (double_of_int (GetDuration t))
      else
        set_os_now_playing_info (CString_bytes "") (CString_bytes "")
          (CString_bytes placeholder_artwork) (S754_zero false)
  | None =>
      set_os_now_playing_info (CString_bytes "") (CString_bytes "")
        (CString_bytes placeholder_artwork) (S754_zero false)
  end.

(** The world a registration with a non-nil player ends in. *)
Definition registered {PS : Type} (w : World PS) (p : ControlledPlayerImpl PS)
    (l : LoggerInterface) : World PS :=
  let mp := List.length (heap w) in
  {| heap := heap w ++ [{| player := Some p; logger := l |}];
     mpMediaEventRecipient := Some mp;
     cmem := cmem w;
     listeners := listeners w ++ map (fun x => (pid p, x)) (bridge_listeners mp);
     pstate := pstate w;
     os_accepts := os_accepts w;
     os_delivers := os_accepts w;
     trace := trace w ++
              EStoreRecipient mp :: ENative register_os_remote_commands ::
              map (fun x => EPlayer (pid p) (CallSubscribe x)) (bridge_listeners mp) |}.

(** The registration call hands a non-nil error to its caller. *)
Definition reports_error {PS : Type} (r : Res PS error) : bool :=
  match r with
  | Ok (Some _) _ => true
  | _ => false
  end.

(** ** Runs of several steps *)


(** What only a registration writes is the same in both worlds: the heap
    of handlers, the recipient slot and the listener lists. *)
Definition bridge_state_kept {PS : Type} (w w' : World PS) : Prop :=
  heap w' = heap w /\
  mpMediaEventRecipient w' = mpMediaEventRecipient w /\
  listeners w' = listeners w.

(** The second world continues the trace of the first by effects that
    satisfy [P]. *)
Definition continues_by {PS : Type} (P : list Effect -> Prop)
    (w w' : World PS) : Prop :=
  exists l, trace w' = trace w ++ l /\ P l.

(** The one method a listener calls on the player. *)
Definition is_position_query (pc : nat * PlayerCall) : bool :=
  match snd pc with
  | CallGetTimePos => true
  | _ => false
  end.

(** What the listeners may add to a trace: no store into the recipient
    slot, and no player call other than the position query. *)
Definition listener_effects (l : list Effect) : Prop :=
  recipient_stores l = [] /\
  forallb is_position_query (player_calls l) = true.

(** What command handling may add to a trace: no native call, no store
    into the recipient slot, at most one player call. *)
Definition command_effects (l : list Effect) : Prop :=
  native_calls l = [] /\
  recipient_stores l = [] /\
  (List.length (player_calls l) <= 1)%nat.

(** What a command may do to a world: see [command_effects]; the C memory
    and the state of the native side stay as they are. *)
Definition command_frame {PS : Type} (w w' : World PS) : Prop :=
  (bridge_state_kept w w' /\ cmem w' = cmem w /\
   os_accepts w' = os_accepts w /\ os_delivers w' = os_delivers w) /\
  continues_by command_effects w w'.

(** What an event may do to a world: see [listener_effects]; the live C
    blocks and the state of the native side stay as they are. *)
Definition event_frame {PS : Type} (w w' : World PS) : Prop :=
  (bridge_state_kept w w' /\ live_blocks w' = live_blocks w /\
   os_accepts w' = os_accepts w /\ os_delivers w' = os_delivers w) /\
  continues_by listener_effects w w'.

(** The integer a float stands for, when it stands for one. *)
Definition integer_of_float (x : float64) : option Z :=
  match x with
  | S754_zero _ => Some 0%Z
  | S754_finite s m e =>
      match e with
      | Z0 => Some (if s then Zneg m else Zpos m)
      | Zpos k => Some ((if s then Zneg m else Zpos m) * 2 ^ Zpos k)%Z
      | Zneg k =>
          if (Zpos m mod 2 ^ Zpos k =? 0)%Z
          then Some ((if s then Zneg m else Zpos m) / 2 ^ Zpos k)%Z
          else None
      end
  | _ => None
  end.

Module Edge.


End Edge.

(** ** Reasoning about runs *)

(** Projections of updated worlds, reduced field by field. *)
Ltac world_simpl :=
  cbn [heap mpMediaEventRecipient cmem listeners pstate os_accepts
       os_delivers trace set_heap set_recipient set_cmem set_listeners
       set_pstate set_os_delivers log_effect].

Lemma world_ext {PS : Type} (w1 w2 : World PS) :
  heap w1 = heap w2 ->
  mpMediaEventRecipient w1 = mpMediaEventRecipient w2 ->
  cmem w1 = cmem w2 ->
  listeners w1 = listeners w2 ->
  pstate w1 = pstate w2 ->
  os_accepts w1 = os_accepts w2 ->
  os_delivers w1 = os_delivers w2 ->
  trace w1 = trace w2 ->
  w1 = w2.
Proof.
  destruct w1, w2. cbn. intros. subst. reflexivity.
Qed.

Lemma since_app {PS : Type} (w w' : World PS) (l : list Effect) :
  trace w' = trace w ++ l -> since w w' = l.
Proof.
  intros E. unfold since. rewrite E. clear E.
  induction (trace w) as [|e t IH]; simpl; auto.
Qed.

(** Pairwise distinct codes, in the form arithmetic tactics use. *)
Lemma distinct_codes (hdr : CommandCodes) :
  NoDup (codes hdr) ->
  (PLAY hdr <> PAUSE hdr /\ PLAY hdr <> STOP hdr /\ PLAY hdr <> TOGGLE hdr /\
   PLAY hdr <> PREVIOUS_TRACK hdr /\ PLAY hdr <> NEXT_TRACK hdr /\
   PLAY hdr <> SEEK hdr) /\
  (PAUSE hdr <> STOP hdr /\ PAUSE hdr <> TOGGLE hdr /\
   PAUSE hdr <> PREVIOUS_TRACK hdr /\ PAUSE hdr <> NEXT_TRACK hdr /\
   PAUSE hdr <> SEEK hdr) /\
  (STOP hdr <> TOGGLE hdr /\ STOP hdr <> PREVIOUS_TRACK hdr /\
   STOP hdr <> NEXT_TRACK hdr /\ STOP hdr <> SEEK hdr) /\
  (TOGGLE hdr <> PREVIOUS_TRACK hdr /\ TOGGLE hdr <> NEXT_TRACK hdr /\
   TOGGLE hdr <> SEEK hdr) /\
  (PREVIOUS_TRACK hdr <> NEXT_TRACK hdr /\ PREVIOUS_TRACK hdr <> SEEK hdr) /\
  NEXT_TRACK hdr <> SEEK hdr.
Proof.
  unfold codes. intros ND.
  repeat match goal with
         | H : NoDup (_ :: _) |- _ => inversion H; subst; clear H
         end.
  cbn [In] in *. intuition congruence.
Qed.

Section CommandSide.

Context {PS : Type}.
Variable hdr : CommandCodes.

(** Every recognised code has a row in the table. *)
Lemma recognised_maps (p : ControlledPlayerImpl PS) (v : float64) (c : Z) :
  In c (codes hdr) ->
  exists call method name, command_maps_to hdr p v c call method name.
Proof.
  unfold codes. cbn [In].
  intros [E|[E|[E|[E|[E|[E|[E|[]]]]]]]]; subst c;
    do 3 eexists; constructor.
Qed.

Ltac pick_case :=
  repeat match goal with
         | |- context [Z.eqb ?a ?b] =>
             destruct (Z.eqb_spec a b); try (exfalso; congruence)
         end.

Lemma callback_registered (w : World PS) (a : ptr) (h : MPMediaHandler PS)
    (p : ControlledPlayerImpl PS) (v : float64) (c : Z) (call : PlayerCall)
    (method : PS -> error * PS) (name : string) :
  NoDup (codes hdr) ->
  recipient_is w a h p ->
  command_maps_to hdr p v c call method name ->
  os_remote_command_callback hdr c v w = control_step h p call method name w.
Proof.
  intros ND (Hr & Hh & Hp) Hm.
  pose proof (distinct_codes ND) as D.
  decompose [and] D; clear D.
  destruct Hm; unfold os_remote_command_callback; pick_case;
    unfold bind, load_recipient; rewrite Hr;
    unfold OnCommandPlay, OnCommandPause, OnCommandStop,
      OnCommandTogglePlayPause, OnCommandPreviousTrack, OnCommandNextTrack,
      OnCommandSeek, bind, deref;
    rewrite Hh, Hp; unfold control_step, invoke, logger_PrintError, panic, ret, effect;
    match goal with
    | |- context [?m (pstate w)] => destruct (m (pstate w)) as [[failure|] s]
    end; cbn [fst snd]; try reflexivity;
    destruct (logger h); reflexivity.
Qed.

(** With no recipient in the slot a recognised command changes nothing. *)
Lemma callback_unregistered (w : World PS) (v : float64) (c : Z) :
  mpMediaEventRecipient w = None ->
  In c (codes hdr) ->
  os_remote_command_callback hdr c v w = Ok tt w.
Proof.
  intros Hr Hin. unfold os_remote_command_callback.
  pick_case; try (unfold bind, load_recipient; rewrite Hr; reflexivity).
  exfalso. unfold codes in Hin. cbn [In] in Hin. intuition congruence.
Qed.

(** A code outside the enumeration reaches the [default] branch. *)
Lemma callback_unknown (w : World PS) (v : float64) (c : Z) :
  ~ In c (codes hdr) ->
  os_remote_command_callback hdr c v w =
  Ok tt (log_effect (EStdLog "unknown OS command received: %v" c) w).
Proof.
  intros Hin. unfold codes in Hin. cbn [In] in Hin.
  unfold os_remote_command_callback.
  pick_case; try (exfalso; intuition congruence).
  reflexivity.
Qed.

End CommandSide.

(** ** Incoming commands *)

(** C1, counterexample.  The command PLAY delivered before any handler
    is registered: [OnCommandPlay] returns at its guard and no control
    method is invoked. *)
Lemma C1_counterexample :
  In (PLAY Sample.std_codes) (codes Sample.std_codes) /\
  ~ invokes_exactly_one Sample.std_codes (PLAY Sample.std_codes)
      (double_of_int 0) (Sample.boot true).
Proof.
  split.
  - left. reflexivity.
  - intros [pc H]. vm_compute in H. discriminate H.
Qed.

(** C1, as amended.  When the recipient slot refers to a handler whose
    player is not nil, every recognised command code invokes exactly one
    control method, the one the table names for it: Play for PLAY, Pause
    for PAUSE, Stop for STOP, Pause for TOGGLE whatever the player state,
    PreviousTrack for PREVIOUS_TRACK, NextTrack for NEXT_TRACK and
    SeekAbsolute for SEEK with the payload unchanged; the player state
    moves by that method and no other. *)
Theorem C1_command_invokes_its_method {PS : Type} (hdr : CommandCodes)
    (w : World PS) (a : ptr) (h : MPMediaHandler PS)
    (p : ControlledPlayerImpl PS) (v : float64) (c : Z) (call : PlayerCall)
    (method : PS -> error * PS) (name : string) :
  NoDup (codes hdr) ->
  recipient_is w a h p ->
  command_maps_to hdr p v c call method name ->
  player_calls (since w (final (os_remote_command_callback hdr c v w)))
    = [(pid p, call)] /\
  pstate (final (os_remote_command_callback hdr c v w))
    = snd (method (pstate w)).
Proof.
  intros ND Hr Hm.
  rewrite (callback_registered ND Hr Hm).
  unfold control_step.
  destruct (method (pstate w)) as [[failure|] s]; cbn [fst snd];
    [destruct (logger h) as [lg|]|]; cbn [final].
  - split; [|reflexivity].
    rewrite since_app with (l := [EPlayer (pid p) call; ELogger lg (PrintError name failure)])
      by (cbn; rewrite <- app_assoc; reflexivity).
    reflexivity.
  - split; [|reflexivity].
    rewrite since_app with (l := [EPlayer (pid p) call]) by reflexivity.
    reflexivity.
  - split; [|reflexivity].
    rewrite since_app with (l := [EPlayer (pid p) call]) by reflexivity.
    reflexivity.
Qed.

(** C4.  A command code outside the enumeration makes the callback return
    normally, with no control method invoked and exactly one log entry,
    the one written by [log.Printf]. *)
Theorem C4_unknown_command_logged_once {PS : Type} (hdr : CommandCodes)
    (w : World PS) (c : Z) (v : float64) :
  ~ In c (codes hdr) ->
  exists w',
    os_remote_command_callback hdr c v w = Ok tt w' /\
    player_calls (since w w') = [] /\
    log_entries (since w w') = [EStdLog "unknown OS command received: %v" c] /\
    pstate w' = pstate w.
Proof.
  intros Hin. rewrite (callback_unknown w v Hin).
  eexists. split; [reflexivity|].
  rewrite since_app with (l := [EStdLog "unknown OS command received: %v" c])
    by reflexivity.
  repeat split.
Qed.

(** C5, counterexample.  A bridge registered with a nil logger: the
    failing [Play] is called, but its error is not logged and the
    callback does not return; it panics in [mp.logger.PrintError]. *)
Lemma C5_counterexample :
  RegisterMPMediaHandler (Some Sample.broken_player) None (Sample.boot true)
    = Ok None Sample.registered_mute /\
  player_calls
    (since Sample.registered_mute
       (final (os_remote_command_callback Sample.std_codes
                 (PLAY Sample.std_codes) (double_of_int 0)
                 Sample.registered_mute)))
    = [(8, CallPlay)] /\
  log_entries
    (since Sample.registered_mute
       (final (os_remote_command_callback Sample.std_codes
                 (PLAY Sample.std_codes) (double_of_int 0)
                 Sample.registered_mute)))
    = [] /\
  returned (os_remote_command_callback Sample.std_codes
              (PLAY Sample.std_codes) (double_of_int 0)
              Sample.registered_mute) = false.
Proof.
  split; [vm_compute; reflexivity|].
  split; [vm_compute; reflexivity|].
  split; [vm_compute; reflexivity|].
  vm_compute; reflexivity.
Qed.

(** C5, as amended.  For a recognised command reaching a handler with a
    player and a logger: when the control method returns an error, the
    callback still
    returns normally and the run consists of the call followed by one
    [PrintError] on the handler's logger, carrying the operation name and
    the error; when the method returns nil, the call is all there is and
    nothing is logged. *)
Theorem C5_player_error_logged_not_raised {PS : Type} (hdr : CommandCodes)
    (w : World PS) (a : ptr) (h : MPMediaHandler PS)
    (p : ControlledPlayerImpl PS) (lg : nat) (v : float64) (c : Z)
    (call : PlayerCall) (method : PS -> error * PS) (name : string) :
  NoDup (codes hdr) ->
  recipient_is w a h p ->
  logger h = Some lg ->
  command_maps_to hdr p v c call method name ->
  exists w',
    os_remote_command_callback hdr c v w = Ok tt w' /\
    match fst (method (pstate w)) with
    | Some e =>
        since w w' = [EPlayer (pid p) call; ELogger lg (PrintError name e)]
    | None =>
        since w w' = [EPlayer (pid p) call] /\ log_entries (since w w') = []
    end.
Proof.
  intros ND Hr Hl Hm.
  rewrite (callback_registered ND Hr Hm).
  unfold control_step. rewrite Hl.
  destruct (method (pstate w)) as [[failure|] s]; cbn [fst snd].
  - eexists. split; [reflexivity|].
    apply since_app. cbn. rewrite <- app_assoc. reflexivity.
  - eexists. split; [reflexivity|].
    rewrite since_app with (l := [EPlayer (pid p) call]) by reflexivity.
    split; reflexivity.
Qed.

Section NoPanic.

Context {PS : Type}.

Ltac handler_returns :=
  let Hr := fresh "Hr" in
  let h := fresh "h" in
  let Hh := fresh "Hh" in
  let Hl := fresh "Hl" in
  let pl := fresh "pl" in
  intros w Hr; unfold recipient_ok in Hr;
  destruct (mpMediaEventRecipient w) as [a|]; [|reflexivity];
  destruct Hr as (h & Hh & Hl);
  cbn; unfold bind, deref; rewrite Hh;
  destruct (player h) as [pl|] eqn:Hp; [|reflexivity];
  destruct Hl as [Hl|Hl]; [discriminate Hl|];
  unfold invoke;
  match goal with
  | |- context [?m (pstate w)] => destruct (m (pstate w)) as [[failure|] s]
  end; [|reflexivity];
  destruct (logger h); [reflexivity|congruence].

Lemma OnCommandPlay_returns :
  forall w : World PS, recipient_ok w ->
    returned (OnCommandPlay (mpMediaEventRecipient w) w) = true.
Proof. handler_returns. Qed.

Lemma OnCommandPause_returns :
  forall w : World PS, recipient_ok w ->
    returned (OnCommandPause (mpMediaEventRecipient w) w) = true.
Proof. handler_returns. Qed.

Lemma OnCommandStop_returns :
  forall w : World PS, recipient_ok w ->
    returned (OnCommandStop (mpMediaEventRecipient w) w) = true.
Proof. handler_returns. Qed.

Lemma OnCommandTogglePlayPause_returns :
  forall w : World PS, recipient_ok w ->
    returned (OnCommandTogglePlayPause (mpMediaEventRecipient w) w) = true.
Proof. handler_returns. Qed.

Lemma OnCommandPreviousTrack_returns :
  forall w : World PS, recipient_ok w ->
    returned (OnCommandPreviousTrack (mpMediaEventRecipient w) w) = true.
Proof. handler_returns. Qed.

Lemma OnCommandNextTrack_returns :
  forall w : World PS, recipient_ok w ->
    returned (OnCommandNextTrack (mpMediaEventRecipient w) w) = true.
Proof. handler_returns. Qed.

Lemma OnCommandSeek_returns (v : float64) :
  forall w : World PS, recipient_ok w ->
    returned (OnCommandSeek (mpMediaEventRecipient w) v w) = true.
Proof. handler_returns. Qed.

End NoPanic.

(** C9, counterexample.  A bridge registered with a nil logger: the
    registration returns nil, and the first command whose control call
    fails panics in [mp.logger.PrintError], a method call on a nil
    interface. *)
Lemma C9_counterexample :
  RegisterMPMediaHandler (Some Sample.broken_player) None (Sample.boot true)
    = Ok None Sample.registered_mute /\
  returned (os_remote_command_callback Sample.std_codes
              (PLAY Sample.std_codes) (double_of_int 0)
              Sample.registered_mute) = false.
Proof.
  split; vm_compute; reflexivity.
Qed.

(** C9, as amended.  As long as the handler in the recipient slot has a
    logger whenever it has a player, the callback returns normally
    whatever the command code and payload, recognised or not, whatever the
    results of the player's methods, failures included, and whether the
    slot is nil, refers to a handler without a player or to a handler with
    one. *)
Theorem C9_commands_never_panic {PS : Type} (hdr : CommandCodes)
    (w : World PS) (c : Z) (v : float64) :
  recipient_ok w ->
  returned (os_remote_command_callback hdr c v w) = true.
Proof.
  intros Hok. unfold os_remote_command_callback.
  repeat match goal with
         | |- context [Z.eqb ?x ?y] => destruct (Z.eqb x y)
         end;
    try (unfold bind at 1, load_recipient;
         auto using OnCommandPlay_returns, OnCommandPause_returns,
           OnCommandStop_returns, OnCommandTogglePlayPause_returns,
           OnCommandPreviousTrack_returns, OnCommandNextTrack_returns,
           OnCommandSeek_returns).
  reflexivity.
Qed.

(** ** Events of the player *)

Lemma nth_error_snoc {A : Type} (l : list A) (x : A) :
  nth_error (l ++ [x]) (List.length l) = Some x.
Proof.
  induction l as [|y l IH]; simpl; auto.
Qed.

Lemma nth_error_before_snoc {A : Type} (l : list A) (x : A) (n : nat) (y : A) :
  nth_error l n = Some y -> nth_error (l ++ [x]) n = Some y.
Proof.
  revert n. induction l as [|z l IH]; intros [|n]; simpl; try discriminate; auto.
Qed.

Lemma release_last (m : list (option (list byte))) (b : option (list byte)) :
  release (m ++ [b]) (List.length m) = m ++ [None].
Proof.
  induction m as [|x m IH]; simpl; [reflexivity|]. now rewrite IH.
Qed.

Lemma release_front (m rest : list (option (list byte))) (b : option (list byte)) :
  release ((m ++ [b]) ++ rest) (List.length m) = (m ++ [None]) ++ rest.
Proof.
  induction m as [|x m IH]; simpl; [reflexivity|]. now rewrite IH.
Qed.

Lemma live_blocks_released {PS : Type} (w : World PS) (n : nat) (w0 : World PS) :
  live_blocks (set_cmem (cmem w ++ repeat None n) w0) = live_blocks w.
Proof.
  unfold live_blocks. cbn [cmem set_cmem].
  rewrite flat_map_app.
  replace (flat_map _ (repeat None n)) with (@nil (list byte)).
  - apply app_nil_r.
  - induction n; simpl; auto.
Qed.

Section EventSide.

Context {PS : Type}.

(** [updateMetadata] always returns; it makes one native call, carrying
    the resolved record, and leaves three released blocks behind. *)
Lemma updateMetadata_run (w : World PS) (mp : ptr) (track : TrackInterface) :
  updateMetadata mp track w =
  Ok tt (set_cmem (cmem w ++ repeat None 3)
           (log_effect (ENative (resolved_info track)) w)).
Proof.
  unfold updateMetadata.
  assert (G : forall title artist duration,
    (cTitle <- C_CString title ;;
     cArtist <- C_CString artist ;;
     cArtURL <- C_CString placeholder_artwork ;;
     C_set_os_now_playing_info cTitle cArtist cArtURL (double_of_int duration) ;;
     C_free cArtURL ;; C_free cArtist ;; C_free cTitle) w =
    Ok tt (set_cmem (cmem w ++ repeat None 3)
             (log_effect
                (ENative (set_os_now_playing_info (CString_bytes title)
                   (CString_bytes artist) (CString_bytes placeholder_artwork)
                   (double_of_int duration))) w))).
  { intros title artist duration.
    unfold bind, C_CString, C_set_os_now_playing_info, bind, C_read, C_free,
      native, effect.
    cbn [cmem set_cmem log_effect].
    set (m := cmem w).
    pose proof (nth_error_snoc m (Some (CString_bytes title))) as E1.
    apply (@nth_error_before_snoc _ _ (Some (CString_bytes artist))) in E1.
    apply (@nth_error_before_snoc _ _ (Some (CString_bytes placeholder_artwork)))
      in E1.
    rewrite E1. cbn [cmem set_cmem].
    pose proof (nth_error_snoc (m ++ [Some (CString_bytes title)])
                  (Some (CString_bytes artist))) as E2.
    apply (@nth_error_before_snoc _ _ (Some (CString_bytes placeholder_artwork)))
      in E2.
    rewrite E2. cbn [cmem set_cmem].
    rewrite nth_error_snoc. cbn [cmem set_cmem log_effect].
    rewrite release_last.
    rewrite (release_front (m ++ [Some (CString_bytes title)]) [None]).
    rewrite <- app_assoc.
    rewrite (release_front m ([None] ++ [None])).
    unfold set_cmem. cbn.
    rewrite <- !app_assoc. reflexivity. }
  destruct track as [t|]; [destruct (IsValid t) eqn:V|]; cbn [resolved_info];
    try rewrite V; apply G.
Qed.

Lemma emit_song_change (w : World PS) (mp : ptr) (p : ControlledPlayerImpl PS)
    (lg : nat) (track : TrackInterface) :
  attached w mp p lg ->
  emit (pid p) (SongChange track) w = call_TrackFunc (FnSongChange mp) track w.
Proof.
  intros [_ Hl]. unfold emit. rewrite Hl.
  cbn [bridge_listeners notify_all notify].
  unfold bind at 1. cbn [ret]. unfold bind at 1.
  destruct (call_TrackFunc (FnSongChange mp) track w) as [[] w'|w']; reflexivity.
Qed.

Lemma emit_plain (w : World PS) (mp : ptr) (p : ControlledPlayerImpl PS)
    (lg : nat) :
  attached w mp p lg ->
  emit (pid p) Stopped w = call_PlainFunc (FnStopped mp) w /\
  emit (pid p) Seek w = call_PlainFunc (FnSeek mp) w /\
  emit (pid p) Playing w = call_PlainFunc (FnPlaying mp) w /\
  emit (pid p) Paused w = call_PlainFunc (FnPaused mp) w.
Proof.
  intros [_ Hl]. unfold emit. rewrite Hl.
  cbn [bridge_listeners notify_all notify].
  repeat split; unfold bind, ret;
    match goal with
    | |- context [call_PlainFunc ?f w] =>
        destruct (call_PlainFunc f w) as [[] w'|w']; reflexivity
    end.
Qed.

End EventSide.

(** C2, counterexample.  A bridge registered with a nil logger: on
    a song change its listener panics in [mp.logger.Print], before any call of
    the native side; no record is published. *)
Lemma C2_counterexample :
  RegisterMPMediaHandler (Some Sample.broken_player) None (Sample.boot true)
    = Ok None Sample.registered_mute /\
  returned (emit 8 (SongChange (Some Sample.track_AB)) Sample.registered_mute) = false /\
  native_calls
    (since Sample.registered_mute
       (final (emit 8 (SongChange (Some Sample.track_AB)) Sample.registered_mute)))
    = [].
Proof.
  split; [vm_compute; reflexivity|].
  split; [vm_compute; reflexivity|].
  vm_compute; reflexivity.
Qed.

(** C2, as amended.  For a bridge attached to its player, with a logger,
    every song-change event ends in exactly one native call,
    [set_os_now_playing_info] with the
    four fields of the resolved record: title, artist and duration of the
    track when it is present and valid, the empty strings and 0.0 when it
    is nil or invalid, and the placeholder artwork in every case; the C
    strings made for the call are released again. *)
Theorem C2_song_change_publishes_resolved_record {PS : Type} (w : World PS)
    (mp : ptr) (p : ControlledPlayerImpl PS) (lg : nat)
    (track : TrackInterface) :
  attached w mp p lg ->
  exists w',
    emit (pid p) (SongChange track) w = Ok tt w' /\
    since w w' = [ELogger lg (Print "OnSongChange"); ENative (resolved_info track)] /\
    native_calls (since w w') = [resolved_info track] /\
    live_blocks w' = live_blocks w.
Proof.
  intros Ha. rewrite (emit_song_change track Ha).
  destruct Ha as [Hh _].
  unfold call_TrackFunc, bind, deref. rewrite Hh.
  cbn [logger logger_Print effect].
  rewrite updateMetadata_run.
  eexists. split; [reflexivity|].
  rewrite since_app
    with (l := [ELogger lg (Print "OnSongChange"); ENative (resolved_info track)])
    by (cbn; rewrite <- app_assoc; reflexivity).
  repeat split.
  apply (live_blocks_released w 3).
Qed.

(** C3, counterexample.  A bridge registered with a nil logger: on
    a Playing event its listener panics in [mp.logger.Print], before any call of
    the native side; neither the state nor the position is pushed. *)
Lemma C3_counterexample :
  RegisterMPMediaHandler (Some Sample.broken_player) None (Sample.boot true)
    = Ok None Sample.registered_mute /\
  returned (emit 8 Playing Sample.registered_mute) = false /\
  native_calls
    (since Sample.registered_mute
       (final (emit 8 Playing Sample.registered_mute)))
    = [].
Proof.
  split; [vm_compute; reflexivity|].
  split; [vm_compute; reflexivity|].
  vm_compute; reflexivity.
Qed.

(** C3, as amended.  For a bridge attached to its player, with a logger:
    on a Playing event the native layer receives the playing state and
    then the position the
    player reports, on a Paused event the paused state and then the
    position, on a Stopped event the stopped state and nothing else. *)
Theorem C3_state_then_position {PS : Type} (w : World PS) (mp : ptr)
    (p : ControlledPlayerImpl PS) (lg : nat) :
  attached w mp p lg ->
  let pos := fst (GetTimePos p (pstate w)) in
  (exists w',
     emit (pid p) Playing w = Ok tt w' /\
     since w w' = [ELogger lg (Print "OnPlaying");
                   ENative set_os_playback_state_playing;
                   EPlayer (pid p) CallGetTimePos;
                   ENative (update_os_now_playing_info_position pos)] /\
     native_calls (since w w') =
       [set_os_playback_state_playing; update_os_now_playing_info_position pos]) /\
  (exists w',
     emit (pid p) Paused w = Ok tt w' /\
     since w w' = [ELogger lg (Print "OnPaused");
                   ENative set_os_playback_state_paused;
                   EPlayer (pid p) CallGetTimePos;
                   ENative (update_os_now_playing_info_position pos)] /\
     native_calls (since w w') =
       [set_os_playback_state_paused; update_os_now_playing_info_position pos]) /\
  (exists w',
     emit (pid p) Stopped w = Ok tt w' /\
     since w w' = [ELogger lg (Print "OnStopped");
                   ENative set_os_playback_state_stopped] /\
     native_calls (since w w') = [set_os_playback_state_stopped]).
Proof.
  intros Ha pos.
  destruct (emit_plain Ha) as (Est & _ & Epl & Epa).
  rewrite Est, Epl, Epa. clear Est Epl Epa.
  destruct Ha as [Hh _].
  unfold call_PlainFunc, bind, deref. rewrite Hh.
  cbn [logger player logger_Print effect native player_GetTimePos].
  unfold invoke. cbn [pstate log_effect]. subst pos.
  destruct (GetTimePos p (pstate w)) as [x s]. cbn [fst].
  repeat split.
  - eexists. split; [reflexivity|].
    rewrite since_app
      with (l := [ELogger lg (Print "OnPlaying");
                  ENative set_os_playback_state_playing;
                  EPlayer (pid p) CallGetTimePos;
                  ENative (update_os_now_playing_info_position x)])
      by (cbn; rewrite <- !app_assoc; reflexivity).
    split; reflexivity.
  - eexists. split; [reflexivity|].
    rewrite since_app
      with (l := [ELogger lg (Print "OnPaused");
                  ENative set_os_playback_state_paused;
                  EPlayer (pid p) CallGetTimePos;
                  ENative (update_os_now_playing_info_position x)])
      by (cbn; rewrite <- !app_assoc; reflexivity).
    split; reflexivity.
  - eexists. split; [reflexivity|].
    rewrite since_app
      with (l := [ELogger lg (Print "OnStopped");
                  ENative set_os_playback_state_stopped])
      by (cbn; rewrite <- !app_assoc; reflexivity).
    split; reflexivity.
Qed.

(** C8, counterexample.  A bridge registered with a nil logger: on
    a Seek event its listener panics in [mp.logger.Print], before any call of
    the native side; no position is pushed. *)
Lemma C8_counterexample :
  RegisterMPMediaHandler (Some Sample.broken_player) None (Sample.boot true)
    = Ok None Sample.registered_mute /\
  returned (emit 8 Seek Sample.registered_mute) = false /\
  native_calls
    (since Sample.registered_mute
       (final (emit 8 Seek Sample.registered_mute)))
    = [].
Proof.
  split; [vm_compute; reflexivity|].
  split; [vm_compute; reflexivity|].
  vm_compute; reflexivity.
Qed.

(** C8, as amended.  For a bridge attached to its player, with a logger,
    a Seek event makes one native call, the position the player reports;
    no call that sets the
    playback state is made. *)
Theorem C8_seek_pushes_position_only {PS : Type} (w : World PS) (mp : ptr)
    (p : ControlledPlayerImpl PS) (lg : nat) :
  attached w mp p lg ->
  exists w',
    emit (pid p) Seek w = Ok tt w' /\
    since w w' = [ELogger lg (Print "OnSeek");
                  EPlayer (pid p) CallGetTimePos;
                  ENative (update_os_now_playing_info_position
                             (fst (GetTimePos p (pstate w))))] /\
    native_calls (since w w') =
      [update_os_now_playing_info_position (fst (GetTimePos p (pstate w)))] /\
    filter is_state_setter (native_calls (since w w')) = [].
Proof.
  intros Ha.
  destruct (emit_plain Ha) as (_ & Ese & _).
  rewrite Ese. clear Ese.
  destruct Ha as [Hh _].
  unfold call_PlainFunc, bind, deref. rewrite Hh.
  cbn [logger player logger_Print effect native player_GetTimePos].
  unfold invoke. cbn [pstate log_effect].
  destruct (GetTimePos p (pstate w)) as [x s]. cbn [fst].
  eexists. split; [reflexivity|].
  rewrite since_app
    with (l := [ELogger lg (Print "OnSeek");
                EPlayer (pid p) CallGetTimePos;
                ENative (update_os_now_playing_info_position x)])
    by (cbn; rewrite <- !app_assoc; reflexivity).
  repeat split.
Qed.

(** ** Registration *)

Lemma Register_run {PS : Type} (w : World PS) (p : ControlledPlayerImpl PS)
    (l : LoggerInterface) :
  RegisterMPMediaHandler (Some p) l w = Ok None (registered w p l).
Proof.
  unfold RegisterMPMediaHandler, bind, new_handler, store_recipient,
    C_register_os_remote_commands, deref.
  world_simpl.
  repeat (rewrite nth_error_snoc;
          cbn [player player_OnSongChange player_OnStopped player_OnSeek
               player_OnPlaying player_OnPaused subscribe];
          world_simpl).
  unfold ret. f_equal.
  apply world_ext; unfold registered, bridge_listeners; world_simpl;
    cbn [map]; rewrite <- ?app_assoc; reflexivity.
Qed.

(** With a nil player the call stops at the first [mp.player.On...]: a
    method call on a nil interface.  The slot has been written and the
    native side called by then. *)
Lemma Register_nil_player {PS : Type} (w : World PS) (l : LoggerInterface) :
  exists w',
    RegisterMPMediaHandler None l w = Panic w' /\
    mpMediaEventRecipient w' = Some (List.length (heap w)) /\
    os_delivers w' = os_accepts w /\
    since w w' = [EStoreRecipient (List.length (heap w));
                  ENative register_os_remote_commands].
Proof.
  unfold RegisterMPMediaHandler, bind, new_handler, store_recipient,
    C_register_os_remote_commands, deref.
  world_simpl.
  rewrite nth_error_snoc.
  cbn [player player_OnSongChange subscribe panic].
  eexists. split; [reflexivity|]. split; [reflexivity|].
  split; [reflexivity|].
  apply since_app. world_simpl. rewrite <- app_assoc. reflexivity.
Qed.

Lemma listeners_of_app (n : nat) (l1 l2 : list (nat * Listener)) :
  listeners_of n (l1 ++ l2) = listeners_of n l1 ++ listeners_of n l2.
Proof.
  unfold listeners_of. rewrite filter_app, map_app. reflexivity.
Qed.

Lemma listeners_of_own (n : nat) (ls : list Listener) :
  listeners_of n (map (fun x => (n, x)) ls) = ls.
Proof.
  unfold listeners_of.
  induction ls as [|x ls IH]; cbn; [reflexivity|].
  rewrite Nat.eqb_refl. cbn. now rewrite IH.
Qed.

(** Registration on a player nobody listens to yet attaches the new
    bridge. *)
Lemma Register_attaches {PS : Type} (w : World PS)
    (p : ControlledPlayerImpl PS) (lg : nat) :
  listeners_of (pid p) (listeners w) = [] ->
  attached (registered w p (Some lg)) (List.length (heap w)) p lg.
Proof.
  intros Hnone. split.
  - cbn [registered heap]. apply nth_error_snoc.
  - cbn [registered listeners].
    rewrite listeners_of_app, Hnone, listeners_of_own. reflexivity.
Qed.

(** A registration with a logger leaves the slot in the state the command
    handlers rely on. *)
Lemma Register_recipient_ok {PS : Type} (w : World PS)
    (p : ControlledPlayerImpl PS) (lg : nat) :
  recipient_ok (registered w p (Some lg)).
Proof.
  unfold recipient_ok. cbn [registered mpMediaEventRecipient heap].
  eexists. split; [apply nth_error_snoc|].
  right. discriminate.
Qed.

(** C6, counterexample.  The native side does not accept the
    registration, and [RegisterMPMediaHandler] returns nil all the same. *)
Lemma C6_counterexample :
  os_accepts (Sample.boot false) = false /\
  os_delivers
    (final (RegisterMPMediaHandler (Some Sample.good_player)
              (Some Sample.main_logger) (Sample.boot false))) = false /\
  reports_error
    (RegisterMPMediaHandler (Some Sample.good_player)
       (Some Sample.main_logger) (Sample.boot false)) = false.
Proof.
  repeat split.
Qed.

(** C6, as amended.  [RegisterMPMediaHandler] never hands an error to its
    caller, whether the native side accepts the registration or not: the
    native registration function returns nothing the Go side could
    inspect, and whether commands will be delivered is decided by the
    system alone. *)
Theorem C6_registration_never_reports {PS : Type} (w : World PS)
    (pl : ControlledPlayer PS) (l : LoggerInterface) :
  reports_error (RegisterMPMediaHandler pl l w) = false /\
  os_delivers (final (RegisterMPMediaHandler pl l w)) = os_accepts w.
Proof.
  destruct pl as [p|].
  - rewrite Register_run. split; reflexivity.
  - destruct (Register_nil_player w l) as (w' & E & _ & D & _).
    rewrite E. split; [reflexivity|exact D].
Qed.

(** C7, counterexample.  A second registration that passes a nil player:
    the slot is replaced by the new handler, then the call panics at
    [mp.player.OnSongChange] instead of returning. *)
Lemma C7_counterexample :
  mpMediaEventRecipient Sample.registered_good = Some 0 /\
  mpMediaEventRecipient
    (final (RegisterMPMediaHandler (None : ControlledPlayer nat)
              (Some Sample.main_logger) Sample.registered_good)) = Some 1 /\
  returned (RegisterMPMediaHandler (None : ControlledPlayer nat)
              (Some Sample.main_logger) Sample.registered_good) = false.
Proof.
  split; [vm_compute; reflexivity|].
  split; [vm_compute; reflexivity|].
  vm_compute; reflexivity.
Qed.

(** C7, as amended.  The slot is one pointer.  Each registration with a
    non-nil player stores into it once; a second such registration
    returns nil like the first, logs nothing, and leaves the slot
    referring to the second handler, a cell different
    from the first, which holds the second player and logger. *)
Theorem C7_second_registration_replaces {PS : Type} (w : World PS)
    (p1 p2 : ControlledPlayerImpl PS) (l1 l2 : LoggerInterface) :
  exists w1 w2 a1 a2,
    RegisterMPMediaHandler (Some p1) l1 w = Ok None w1 /\
    RegisterMPMediaHandler (Some p2) l2 w1 = Ok None w2 /\
    mpMediaEventRecipient w1 = Some a1 /\
    mpMediaEventRecipient w2 = Some a2 /\
    a1 <> a2 /\
    nth_error (heap w2) a1 = Some {| player := Some p1; logger := l1 |} /\
    nth_error (heap w2) a2 = Some {| player := Some p2; logger := l2 |} /\
    recipient_stores (since w w1) = [a1] /\
    recipient_stores (since w1 w2) = [a2] /\
    log_entries (since w1 w2) = [].
Proof.
  exists (registered w p1 l1), (registered (registered w p1 l1) p2 l2),
    (List.length (heap w)), (List.length (heap (registered w p1 l1))).
  split; [apply Register_run|].
  split; [apply Register_run|].
  split; [reflexivity|].
  split; [reflexivity|].
  split.
  { cbn [registered heap]. rewrite length_app. cbn. lia. }
  split.
  { cbn [registered heap].
    apply nth_error_before_snoc, nth_error_snoc. }
  split.
  { cbn [registered heap]. apply nth_error_snoc. }
  split; [|split].
  - erewrite since_app by (cbn [registered trace]; reflexivity). reflexivity.
  - erewrite since_app by (cbn [registered trace]; reflexivity). reflexivity.
  - erewrite since_app by (cbn [registered trace]; reflexivity). reflexivity.
Qed.

(** C10, counterexample.  With a nil player the call does not return: it
    panics at [mp.player.OnSongChange]. *)
Lemma C10_counterexample :
  returned (RegisterMPMediaHandler (None : ControlledPlayer nat)
              (Some Sample.main_logger) (Sample.boot true)) = false.
Proof.
  reflexivity.
Qed.

(** C10, as amended.  For every non-nil player and every logger, nil or
    not, the call returns nil; afterwards the slot refers to a cell that
    did not exist before and holds exactly the given player and logger;
    the store into the slot is the first effect of the call and the
    native registration the second, followed by the five subscriptions. *)
Theorem C10_registration_installs_handler {PS : Type} (w : World PS)
    (p : ControlledPlayerImpl PS) (l : LoggerInterface) :
  exists w' mp,
    RegisterMPMediaHandler (Some p) l w = Ok None w' /\
    mpMediaEventRecipient w' = Some mp /\
    nth_error (heap w) mp = None /\
    nth_error (heap w') mp = Some {| player := Some p; logger := l |} /\
    since w w' =
      EStoreRecipient mp :: ENative register_os_remote_commands ::
      map (fun x => EPlayer (pid p) (CallSubscribe x)) (bridge_listeners mp).
Proof.
  exists (registered w p l), (List.length (heap w)).
  split; [apply Register_run|].
  split; [reflexivity|].
  split; [apply nth_error_None; lia|].
  split; [cbn [registered heap]; apply nth_error_snoc|].
  apply since_app. reflexivity.
Qed.

(** ** The statements at sample inputs *)

Lemma std_codes_distinct : NoDup (codes Sample.std_codes).
Proof.
  unfold codes. cbn.
  repeat (constructor; [cbn; intuition discriminate|]).
  constructor.
Qed.

Lemma registered_good_recipient :
  recipient_is Sample.registered_good 0 Sample.good_handler Sample.good_player.
Proof.
  repeat split.
Qed.

Lemma registered_broken_recipient :
  recipient_is Sample.registered_broken 0 Sample.broken_handler
    Sample.broken_player.
Proof.
  repeat split.
Qed.

Lemma registered_good_attached :
  attached Sample.registered_good 0 Sample.good_player Sample.main_logger.
Proof.
  exact (@Register_attaches nat (Sample.boot true) Sample.good_player
           Sample.main_logger eq_refl).
Qed.

Lemma registered_broken_ok : recipient_ok Sample.registered_broken.
Proof.
  exact (@Register_recipient_ok nat (Sample.boot true) Sample.broken_player
           Sample.main_logger).
Qed.

(** SEEK(42.5) on the registered sample player: one call of
    [SeekAbsolute(42.5)]. *)
Lemma C1_witness :
  NoDup (codes Sample.std_codes) /\
  recipient_is Sample.registered_good 0 Sample.good_handler Sample.good_player /\
  command_maps_to Sample.std_codes Sample.good_player Sample.seconds_42_5 6
    (CallSeekAbsolute Sample.seconds_42_5)
    (SeekAbsolute Sample.good_player Sample.seconds_42_5) "SeekAbsolute" /\
  player_calls
    (since Sample.registered_good
       (final (os_remote_command_callback Sample.std_codes 6
                 Sample.seconds_42_5 Sample.registered_good)))
    = [(7, CallSeekAbsolute Sample.seconds_42_5)].
Proof.
  split; [exact std_codes_distinct|].
  split; [exact registered_good_recipient|].
  split; [exact (maps_seek Sample.std_codes Sample.good_player Sample.seconds_42_5)|].
  exact (proj1 (@C1_command_invokes_its_method nat Sample.std_codes
                  Sample.registered_good 0 Sample.good_handler
                  Sample.good_player Sample.seconds_42_5 6
                  (CallSeekAbsolute Sample.seconds_42_5)
                  (SeekAbsolute Sample.good_player Sample.seconds_42_5)
                  "SeekAbsolute"
                  std_codes_distinct registered_good_recipient
                  (maps_seek Sample.std_codes Sample.good_player
                     Sample.seconds_42_5))).
Defined.

(** The track A by B of 180 seconds. *)
Lemma C2_witness :
  attached Sample.registered_good 0 Sample.good_player Sample.main_logger /\
  exists w',
    emit 7 (SongChange (Some Sample.track_AB)) Sample.registered_good = Ok tt w' /\
    native_calls (since Sample.registered_good w') =
      [set_os_now_playing_info (CString_bytes "A") (CString_bytes "B")
         (CString_bytes placeholder_artwork) (double_of_int 180)].
Proof.
  split; [exact registered_good_attached|].
  destruct (@C2_song_change_publishes_resolved_record nat
              Sample.registered_good 0 Sample.good_player Sample.main_logger
              (Some Sample.track_AB) registered_good_attached)
    as (w' & E & _ & N & _).
  exists w'. split; [exact E|exact N].
Defined.

Lemma C3_witness :
  attached Sample.registered_good 0 Sample.good_player Sample.main_logger /\
  exists w',
    emit 7 Playing Sample.registered_good = Ok tt w' /\
    native_calls (since Sample.registered_good w') =
      [set_os_playback_state_playing;
       update_os_now_playing_info_position (double_of_int 42)].
Proof.
  split; [exact registered_good_attached|].
  destruct (@C3_state_then_position nat Sample.registered_good 0
              Sample.good_player Sample.main_logger registered_good_attached)
    as ((w' & E & _ & N) & _).
  exists w'. split; [exact E|exact N].
Defined.

(** The code 9 is none of the seven. *)
Lemma C4_witness :
  ~ In 9%Z (codes Sample.std_codes) /\
  exists w',
    os_remote_command_callback Sample.std_codes 9 (double_of_int 0)
      (Sample.boot true) = Ok tt w' /\
    log_entries (since (Sample.boot true) w') =
      [EStdLog "unknown OS command received: %v" 9].
Proof.
  assert (H : ~ In 9%Z (codes Sample.std_codes))
    by (cbn; intuition discriminate).
  split; [exact H|].
  destruct (@C4_unknown_command_logged_once nat Sample.std_codes
              (Sample.boot true) 9 (double_of_int 0) H) as (w' & E & _ & L & _).
  exists w'. split; [exact E|exact L].
Defined.

(** PLAY on the player that has no connection. *)
Lemma C5_witness :
  NoDup (codes Sample.std_codes) /\
  recipient_is Sample.registered_broken 0 Sample.broken_handler
    Sample.broken_player /\
  logger Sample.broken_handler = Some Sample.main_logger /\
  exists w',
    os_remote_command_callback Sample.std_codes 0 (double_of_int 0)
      Sample.registered_broken = Ok tt w' /\
    since Sample.registered_broken w' =
      [EPlayer 8 CallPlay;
       ELogger Sample.main_logger (PrintError "Play" Sample.no_connection)].
Proof.
  split; [exact std_codes_distinct|].
  split; [exact registered_broken_recipient|].
  split; [reflexivity|].
  destruct (@C5_player_error_logged_not_raised nat Sample.std_codes
              Sample.registered_broken 0 Sample.broken_handler
              Sample.broken_player Sample.main_logger (double_of_int 0) 0
              CallPlay (Play Sample.broken_player) "Play"
              std_codes_distinct registered_broken_recipient eq_refl
              (maps_play Sample.std_codes Sample.broken_player (double_of_int 0)))
    as (w' & E & T).
  exists w'. split; [exact E|exact T].
Defined.

Lemma C8_witness :
  attached Sample.registered_good 0 Sample.good_player Sample.main_logger /\
  exists w',
    emit 7 Seek Sample.registered_good = Ok tt w' /\
    native_calls (since Sample.registered_good w') =
      [update_os_now_playing_info_position (double_of_int 42)].
Proof.
  split; [exact registered_good_attached|].
  destruct (@C8_seek_pushes_position_only nat Sample.registered_good 0
              Sample.good_player Sample.main_logger registered_good_attached)
    as (w' & E & _ & N & _).
  exists w'. split; [exact E|exact N].
Defined.

(** A failing PAUSE on the broken player, and PLAY before registration. *)
Lemma C9_witness :
  recipient_ok Sample.registered_broken /\
  returned (os_remote_command_callback Sample.std_codes 1 (double_of_int 0)
              Sample.registered_broken) = true.
Proof.
  split; [exact registered_broken_ok|].
  exact (@C9_commands_never_panic nat Sample.std_codes
           Sample.registered_broken 1 (double_of_int 0) registered_broken_ok).
Defined.

(** ** Further properties of the bridge *)

Lemma collect_app {A B : Type} (f : A -> option B) (l1 l2 : list A) :
  collect f (l1 ++ l2) = collect f l1 ++ collect f l2.
Proof.
  induction l1 as [|x l1 IH]; cbn; [reflexivity|].
  destruct (f x); cbn; now rewrite IH.
Qed.

(** X1.  [updateMetadata] returns for every receiver, track and world.  It
    makes one native call and nothing else that shows in the trace; the
    three C strings it allocates are live at that call and released
    afterwards, every block allocated before is left as it was, and the
    heap, the recipient slot, the listener lists and the player state do
    not change. *)
Theorem X1_updateMetadata_releases_its_strings {PS : Type} (w : World PS)
    (mp : ptr) (track : TrackInterface) :
  exists w',
    updateMetadata mp track w = Ok tt w' /\
    since w w' = [ENative (resolved_info track)] /\
    cmem w' = cmem w ++ [None; None; None] /\
    live_blocks w' = live_blocks w /\
    bridge_state_kept w w' /\
    pstate w' = pstate w.
Proof.
  rewrite updateMetadata_run. eexists. split; [reflexivity|].
  split; [apply since_app; reflexivity|].
  split; [reflexivity|].
  split; [apply (live_blocks_released w 3)|].
  repeat split.
Qed.

Section Guards.

Context {PS : Type}.
Variable hdr : CommandCodes.

Ltac first_case :=
  repeat match goal with
         | |- context [Z.eqb ?a ?b] =>
             destruct (Z.eqb_spec a b); try (exfalso; congruence)
         end.

Lemma callback_dropped (w : World PS) (c : Z) (v : float64) :
  In c (codes hdr) ->
  (mpMediaEventRecipient w = None \/
   exists a h, mpMediaEventRecipient w = Some a /\
               nth_error (heap w) a = Some h /\ player h = None) ->
  os_remote_command_callback hdr c v w = Ok tt w.
Proof.
  intros Hin [Hnil|(a & h & Hr & Hh & Hp)].
  - unfold os_remote_command_callback.
    first_case; try (unfold bind, load_recipient; rewrite Hnil; reflexivity).
    exfalso. unfold codes in Hin. cbn [In] in Hin. intuition congruence.
  - unfold os_remote_command_callback.
    first_case;
      try (unfold bind, load_recipient; rewrite Hr;
           unfold OnCommandPlay, OnCommandPause, OnCommandStop,
             OnCommandTogglePlayPause, OnCommandPreviousTrack,
             OnCommandNextTrack, OnCommandSeek, bind, deref;
           rewrite Hh, Hp; reflexivity).
    exfalso. unfold codes in Hin. cbn [In] in Hin. intuition congruence.
Qed.

(** X2.  A recognised command is dropped without any effect when the
    recipient slot is nil, and also when the handler in the slot has no
    player: the world after the callback is the world before it. *)
Theorem X2_guarded_command_changes_nothing (w : World PS) (c : Z)
    (v : float64) :
  In c (codes hdr) ->
  (mpMediaEventRecipient w = None \/
   exists a h, mpMediaEventRecipient w = Some a /\
               nth_error (heap w) a = Some h /\ player h = None) ->
  os_remote_command_callback hdr c v w = Ok tt w.
Proof.
  intros Hin Hguard. exact (callback_dropped w v Hin Hguard).
Qed.

(** X3.  The numeric payload matters to the SEEK command only: for every
    other code, recognised or not, the callback does the same with any
    two payloads. *)
Theorem X3_payload_used_by_seek_only (w : World PS) (c : Z)
    (v v' : float64) :
  c <> SEEK hdr ->
  os_remote_command_callback hdr c v w = os_remote_command_callback hdr c v' w.
Proof.
  intros Hc. unfold os_remote_command_callback.
  first_case; reflexivity.
Qed.

Ltac frame_done :=
  unfold command_frame, bridge_state_kept, continues_by, command_effects;
  cbn [final ret panic effect logger_PrintError]; world_simpl; split;
  [ repeat split
  | first
      [ exists []; split; [symmetry; apply app_nil_r|repeat split; cbn; lia]
      | eexists; split;
        [ world_simpl; rewrite <- ?app_assoc; reflexivity
        | repeat split; cbn; lia ] ] ].

Ltac handler_frame :=
  intros w;
  destruct (mpMediaEventRecipient w) as [a|]; [|frame_done];
  cbn; unfold bind, deref;
  destruct (nth_error (heap w) a) as [h|]; [|frame_done];
  destruct (player h) as [pl|]; [|frame_done];
  unfold invoke;
  match goal with
  | |- context [?m (pstate w)] => destruct (m (pstate w)) as [[failure|] s]
  end; [|frame_done];
  destruct (logger h); frame_done.

Lemma OnCommandPlay_frame :
  forall w : World PS,
    command_frame w (final (OnCommandPlay (mpMediaEventRecipient w) w)).
Proof. handler_frame. Qed.

Lemma OnCommandPause_frame :
  forall w : World PS,
    command_frame w (final (OnCommandPause (mpMediaEventRecipient w) w)).
Proof. handler_frame. Qed.

Lemma OnCommandStop_frame :
  forall w : World PS,
    command_frame w (final (OnCommandStop (mpMediaEventRecipient w) w)).
Proof. handler_frame. Qed.

Lemma OnCommandTogglePlayPause_frame :
  forall w : World PS,
    command_frame w
      (final (OnCommandTogglePlayPause (mpMediaEventRecipient w) w)).
Proof. handler_frame. Qed.

Lemma OnCommandPreviousTrack_frame :
  forall w : World PS,
    command_frame w
      (final (OnCommandPreviousTrack (mpMediaEventRecipient w) w)).
Proof. handler_frame. Qed.

Lemma OnCommandNextTrack_frame :
  forall w : World PS,
    command_frame w (final (OnCommandNextTrack (mpMediaEventRecipient w) w)).
Proof. handler_frame. Qed.

Lemma OnCommandSeek_frame (v : float64) :
  forall w : World PS,
    command_frame w (final (OnCommandSeek (mpMediaEventRecipient w) v w)).
Proof. handler_frame. Qed.

(** X4.  Whatever the command, the world and the outcome, a panic
    included, the callback leaves the heap of handlers, the recipient
    slot, the listener lists, the C memory and the state of the native
    side as they were; it only extends the trace, by effects among which
    there is no native call, no store into the slot and at most one
    player call. *)
Theorem X4_command_touches_player_and_log_only (w : World PS) (c : Z)
    (v : float64) :
  (bridge_state_kept w (final (os_remote_command_callback hdr c v w)) /\
   cmem (final (os_remote_command_callback hdr c v w)) = cmem w /\
   os_accepts (final (os_remote_command_callback hdr c v w)) = os_accepts w /\
   os_delivers (final (os_remote_command_callback hdr c v w)) = os_delivers w) /\
  continues_by command_effects w (final (os_remote_command_callback hdr c v w)).
Proof.
  unfold os_remote_command_callback.
  repeat match goal with
         | |- context [Z.eqb ?x ?y] => destruct (Z.eqb x y)
         end;
    try (unfold bind at 1, load_recipient;
         first [ apply OnCommandPlay_frame | apply OnCommandPause_frame
               | apply OnCommandStop_frame
               | apply OnCommandTogglePlayPause_frame
               | apply OnCommandPreviousTrack_frame
               | apply OnCommandNextTrack_frame
               | apply OnCommandSeek_frame ]).
  unfold log_Printf, effect. frame_done.
Qed.

End Guards.

Section Events.

Context {PS : Type}.

Lemma listener_effects_app (l1 l2 : list Effect) :
  listener_effects l1 -> listener_effects l2 -> listener_effects (l1 ++ l2).
Proof.
  unfold listener_effects, recipient_stores, player_calls.
  intros [S1 Q1] [S2 Q2]. rewrite !collect_app, S1, S2, forallb_app, Q1, Q2.
  split; reflexivity.
Qed.

Lemma event_frame_refl (w : World PS) : event_frame w w.
Proof.
  split; [repeat split|].
  exists []. split; [symmetry; apply app_nil_r|split; reflexivity].
Qed.

Lemma event_frame_trans (w1 w2 w3 : World PS) :
  event_frame w1 w2 -> event_frame w2 w3 -> event_frame w1 w3.
Proof.
  intros [[[H1 [R1 L1]] [B1 [A1 D1]]] [l1 [T1 E1]]]
         [[[H2 [R2 L2]] [B2 [A2 D2]]] [l2 [T2 E2]]].
  split.
  - unfold bridge_state_kept. repeat split; congruence.
  - exists (l1 ++ l2). split.
    + rewrite T2, T1. symmetry. apply app_assoc.
    + now apply listener_effects_app.
Qed.

Ltac event_done :=
  unfold event_frame, bridge_state_kept, continues_by, listener_effects;
  cbn [final ret panic effect native logger_Print]; world_simpl; split;
  [ repeat split
  | first
      [ exists []; split; [symmetry; apply app_nil_r|split; reflexivity]
      | eexists; split;
        [ world_simpl; rewrite <- ?app_assoc; reflexivity
        | split; reflexivity ] ] ].

Lemma call_PlainFunc_frame (f : PlainFunc) (w : World PS) :
  event_frame w (final (call_PlainFunc f w)).
Proof.
  destruct f as [mp|mp|mp|mp]; unfold call_PlainFunc, bind, deref;
    (destruct (nth_error (heap w) mp) as [h|]; [|event_done]);
    (destruct (logger h) as [lg|]; [|event_done]);
    cbn [logger_Print effect native]; try event_done;
    (destruct (player h) as [pl|]; [|cbn [player_GetTimePos]; event_done]);
    cbn [player_GetTimePos]; unfold invoke; world_simpl;
    destruct (GetTimePos pl (pstate w)) as [x s]; event_done.
Qed.

Lemma call_TrackFunc_frame (f : TrackFunc) (track : TrackInterface)
    (w : World PS) :
  event_frame w (final (call_TrackFunc f track w)).
Proof.
  destruct f as [mp]. unfold call_TrackFunc, bind, deref.
  destruct (nth_error (heap w) mp) as [h|]; [|event_done].
  destruct (logger h) as [lg|]; [|event_done].
  cbn [logger_Print effect]. rewrite updateMetadata_run.
  unfold event_frame, bridge_state_kept, continues_by, listener_effects.
  cbn [final]. split.
  - repeat split.
    apply (live_blocks_released w 3).
  - eexists. split.
    + world_simpl. rewrite <- app_assoc. reflexivity.
    + split; reflexivity.
Qed.

Lemma notify_frame (ev : PlayerEvent) (l : Listener) (w : World PS) :
  event_frame w (final (notify ev l w)).
Proof.
  destruct ev, l; cbn [notify];
    first [ apply call_PlainFunc_frame | apply call_TrackFunc_frame
          | apply event_frame_refl ].
Qed.

Lemma notify_all_frame (ev : PlayerEvent) (ls : list Listener) :
  forall w : World PS, event_frame w (final (notify_all ev ls w)).
Proof.
  induction ls as [|l rest IH]; intros w; cbn [notify_all].
  - apply event_frame_refl.
  - pose proof (notify_frame ev l w) as F.
    unfold bind. destruct (notify ev l w) as [[] w1|w1]; cbn [final] in *.
    + exact (event_frame_trans F (IH w1)).
    + exact F.
Qed.

(** X5.  Whatever event a player emits, whichever listeners are attached
    to it and whether they return or panic: the heap of handlers, the
    recipient slot and the listener lists stay as they are, no C string
    is left allocated, the slot is never stored into, and the only
    method called on a player is [GetTimePos].  An event never turns
    into a control call. *)
Theorem X5_event_never_commands_the_player (w : World PS) (p : nat)
    (ev : PlayerEvent) :
  (bridge_state_kept w (final (emit p ev w)) /\
   live_blocks (final (emit p ev w)) = live_blocks w /\
   os_accepts (final (emit p ev w)) = os_accepts w /\
   os_delivers (final (emit p ev w)) = os_delivers w) /\
  continues_by listener_effects w (final (emit p ev w)).
Proof.
  unfold emit. apply notify_all_frame.
Qed.

End Events.

Section Sequences.

Context {PS : Type}.
Variable hdr : CommandCodes.




(** X8.  After a second registration the commands reach the player of
    the second registration and no other: whatever player and logger the
    first registration had, a recognised command invokes its method on
    the second player, once. *)
Theorem X8_commands_follow_the_last_registration (w : World PS)
    (p1 p2 : ControlledPlayerImpl PS) (l1 l2 : LoggerInterface)
    (v : float64) (c : Z) (call : PlayerCall) (method : PS -> error * PS)
    (name : string) :
  NoDup (codes hdr) ->
  command_maps_to hdr p2 v c call method name ->
  exists w1 w2,
    RegisterMPMediaHandler (Some p1) l1 w = Ok None w1 /\
    RegisterMPMediaHandler (Some p2) l2 w1 = Ok None w2 /\
    player_calls (since w2 (final (os_remote_command_callback hdr c v w2)))
      = [(pid p2, call)] /\
    pstate (final (os_remote_command_callback hdr c v w2))
      = snd (method (pstate w)).
Proof.
  intros ND Hm.
  exists (registered w p1 l1), (registered (registered w p1 l1) p2 l2).
  split; [apply Register_run|]. split; [apply Register_run|].
  assert (Hr : recipient_is (registered (registered w p1 l1) p2 l2)
                 (List.length (heap (registered w p1 l1)))
                 {| player := Some p2; logger := l2 |} p2).
  { split; [reflexivity|]. split; [|reflexivity].
    cbn [registered heap]. apply nth_error_snoc. }
  rewrite (callback_registered ND Hr Hm).
  unfold control_step. cbn [logger registered pstate].
  destruct (method (pstate w)) as [[failure|] s]; cbn [fst snd];
    [destruct l2 as [lg|]|]; cbn [final]; (split; [|reflexivity]).
  - erewrite since_app
      by (cbn [registered trace log_effect set_pstate];
          rewrite <- app_assoc; reflexivity).
    reflexivity.
  - erewrite since_app by (cbn [registered trace log_effect set_pstate]; reflexivity).
    reflexivity.
  - erewrite since_app by (cbn [registered trace log_effect set_pstate]; reflexivity).
    reflexivity.
Qed.

(** The world a registration without a player panics in. *)
Lemma Register_nil_player_world (w : World PS) (l : LoggerInterface) :
  RegisterMPMediaHandler None l w =
  Panic (set_os_delivers (os_accepts w)
           (log_effect (ENative register_os_remote_commands)
              (log_effect (EStoreRecipient (List.length (heap w)))
                 (set_recipient (Some (List.length (heap w)))
                    (set_heap (heap w ++ [{| player := None; logger := l |}])
                       w))))).
Proof.
  unfold RegisterMPMediaHandler, bind, new_handler, store_recipient,
    C_register_os_remote_commands, deref.
  world_simpl. rewrite nth_error_snoc.
  cbn [player player_OnSongChange subscribe panic].
  reflexivity.
Qed.

(** X9.  A registration with a nil player panics only after it has put
    the new handler into the recipient slot and registered with the
    native side; no listener has been attached by then.  In the world it
    leaves, every recognised command finds a handler without a player and
    is dropped without effect. *)
Theorem X9_registration_without_player_leaves_inert_handler (w : World PS)
    (l : LoggerInterface) (c : Z) (v : float64) :
  In c (codes hdr) ->
  exists w1,
    RegisterMPMediaHandler None l w = Panic w1 /\
    mpMediaEventRecipient w1 = Some (List.length (heap w)) /\
    nth_error (heap w1) (List.length (heap w))
      = Some {| player := None; logger := l |} /\
    listeners w1 = listeners w /\
    since w w1 = [EStoreRecipient (List.length (heap w));
                  ENative register_os_remote_commands] /\
    os_remote_command_callback hdr c v w1 = Ok tt w1.
Proof.
  intros Hin. rewrite Register_nil_player_world. eexists.
  split; [reflexivity|]. split; [reflexivity|].
  split; [world_simpl; apply nth_error_snoc|].
  split; [reflexivity|].
  split; [apply since_app; world_simpl; rewrite <- app_assoc; reflexivity|].
  apply callback_dropped; [exact Hin|]. right.
  exists (List.length (heap w)), {| player := None; logger := l |}.
  split; [reflexivity|]. split; [world_simpl; apply nth_error_snoc|reflexivity].
Qed.

End Sequences.

(** X7.  Registration never detaches a listener.  When a player that has
    no listeners yet is registered twice, each time with a logger, both
    handlers stay attached, and one Stopped event reaches the native side
    twice, first through the listener of the first registration, then
    through that of the second. *)
Theorem X7_second_registration_doubles_events {PS : Type} (w : World PS)
    (p : ControlledPlayerImpl PS) (lg1 lg2 : nat) :
  listeners_of (pid p) (listeners w) = [] ->
  exists w1 w2 w3,
    RegisterMPMediaHandler (Some p) (Some lg1) w = Ok None w1 /\
    RegisterMPMediaHandler (Some p) (Some lg2) w1 = Ok None w2 /\
    listeners_of (pid p) (listeners w2)
      = bridge_listeners (List.length (heap w))
        ++ bridge_listeners (List.length (heap w1)) /\
    emit (pid p) Stopped w2 = Ok tt w3 /\
    since w2 w3 = [ELogger lg1 (Print "OnStopped");
                   ENative set_os_playback_state_stopped;
                   ELogger lg2 (Print "OnStopped");
                   ENative set_os_playback_state_stopped].
Proof.
  intros Hnone.
  exists (registered w p (Some lg1)),
    (registered (registered w p (Some lg1)) p (Some lg2)).
  assert (HL : listeners_of (pid p)
                 (listeners (registered (registered w p (Some lg1)) p (Some lg2)))
               = bridge_listeners (List.length (heap w))
                 ++ bridge_listeners
                      (List.length (heap (registered w p (Some lg1))))).
  { cbn [registered listeners].
    rewrite !listeners_of_app, Hnone, !listeners_of_own. reflexivity. }
  eexists. split; [apply Register_run|]. split; [apply Register_run|].
  split; [exact HL|].
  unfold emit. rewrite HL.
  cbn [bridge_listeners app notify_all notify].
  unfold bind, ret, call_PlainFunc, bind, deref.
  cbn [registered heap].
  rewrite (@nth_error_before_snoc _ _ _ _ _ (nth_error_snoc (heap w) _)).
  cbn [logger logger_Print effect native]. world_simpl.
  cbn [registered heap].
  rewrite nth_error_snoc.
  cbn [logger logger_Print effect native]. world_simpl.
  split; [reflexivity|].
  apply since_app. world_simpl. rewrite <- !app_assoc. reflexivity.
Qed.

(** *** The conversion of durations *)

Section Durations.

Local Open Scope Z_scope.

Lemma digits2_pos_lower (m : positive) :
  2 ^ Zpos (digits2_pos m) <= 2 * Zpos m.
Proof.
  induction m as [m IH|m IH|]; cbn [digits2_pos].
  - rewrite Pos2Z.inj_succ, Z.pow_succ_r by lia. lia.
  - rewrite Pos2Z.inj_succ, Z.pow_succ_r by lia. lia.
  - cbn. lia.
Qed.

Lemma digits2_pos_le_53 (m : positive) :
  Zpos m < 2 ^ 53 -> Zpos (digits2_pos m) <= 53.
Proof.
  intros H. destruct (Z_le_gt_dec (Zpos (digits2_pos m)) 53) as [L|G]; [exact L|].
  exfalso. pose proof (digits2_pos_lower m) as D.
  assert (2 ^ 54 <= 2 ^ Zpos (digits2_pos m)) by (apply Z.pow_le_mono_r; lia).
  change (2 ^ 54) with (2 * 2 ^ 53) in *. lia.
Qed.

Lemma iter_xO_digits (m k : positive) :
  digits2_pos (Pos.iter xO m k) = (digits2_pos m + k)%positive.
Proof.
  induction k as [|k IH] using Pos.peano_ind.
  - cbn. lia.
  - rewrite Pos.iter_succ. cbn [digits2_pos]. rewrite IH. lia.
Qed.

Lemma iter_xO_value (m k : positive) :
  Zpos (Pos.iter xO m k) = Zpos m * 2 ^ Zpos k.
Proof.
  induction k as [|k IH] using Pos.peano_ind.
  - cbn. lia.
  - rewrite Pos.iter_succ, Pos2Z.inj_succ, Z.pow_succ_r by lia.
    rewrite Pos2Z.inj_xO, IH. lia.
Qed.

Lemma binary_round_aux_canonical (s : bool) (mz : positive) (ez : Z) :
  Zpos (digits2_pos mz) = 53 -> -52 <= ez <= 0 ->
  binary_round_aux 53 1024 s (Zpos mz) ez loc_Exact = S754_finite s mz ez.
Proof.
  intros D E.
  assert (F : fexp 53 1024 (Zpos (digits2_pos mz) + ez) - ez = 0).
  { unfold fexp, emin. rewrite D. lia. }
  unfold binary_round_aux, shr_fexp. cbn [Zdigits2 shr_record_of_loc].
  rewrite F. cbn [shr shr_m loc_of_shr_record round_nearest_even Zdigits2
                  shr_record_of_loc].
  rewrite F. cbn [shr shr_m].
  destruct (Z.leb_spec ez (1024 - 53)); [reflexivity|lia].
Qed.

Lemma binary_round_small (s : bool) (m : positive) :
  Zpos m < 2 ^ 53 ->
  exists mz ez,
    binary_round 53 1024 s m 0 = S754_finite s mz ez /\
    -52 <= ez <= 0 /\ Zpos mz = Zpos m * 2 ^ (- ez).
Proof.
  intros H. pose proof (@digits2_pos_le_53 m H) as D.
  assert (D1 : 1 <= Zpos (digits2_pos m)) by lia.
  unfold binary_round, shl_align.
  replace (fexp 53 1024 (Zpos (digits2_pos m) + 0)) with (Zpos (digits2_pos m) - 53)
    by (unfold fexp, emin; lia).
  rewrite Z.sub_0_r.
  destruct (Zpos (digits2_pos m) - 53) as [|k|k] eqn:K; try lia.
  - exists m, 0. split; [apply binary_round_aux_canonical; lia|].
    split; [lia|]. cbn. lia.
  - exists (Pos.iter xO m k), (Zneg k).
    split.
    + apply binary_round_aux_canonical; [|lia].
      rewrite iter_xO_digits. lia.
    + split; [lia|]. rewrite iter_xO_value. reflexivity.
Qed.

Lemma integer_of_finite (s : bool) (m mz : positive) (ez : Z) :
  -52 <= ez <= 0 -> Zpos mz = Zpos m * 2 ^ (- ez) ->
  integer_of_float (S754_finite s mz ez) = Some (if s then Zneg m else Zpos m).
Proof.
  intros E V. destruct ez as [|k|k]; try lia.
  - cbn in *. destruct s; f_equal; lia.
  - cbn [integer_of_float]. change (- Zneg k) with (Zpos k) in V.
    assert (P : 0 < 2 ^ Zpos k) by (apply Z.pow_pos_nonneg; lia).
    rewrite V, Z.mod_mul by lia. cbn [Z.eqb].
    destruct s; f_equal.
    + change (Zneg mz) with (- Zpos mz). rewrite V.
      rewrite <- Z.mul_opp_l, Z.div_mul by lia. reflexivity.
    + rewrite Z.div_mul by lia. reflexivity.
Qed.

Lemma double_of_int_exact (n : Z) :
  - 2 ^ 53 < n < 2 ^ 53 -> integer_of_float (double_of_int n) = Some n.
Proof.
  intros H. unfold double_of_int, binary_normalize.
  destruct n as [|m|m].
  - reflexivity.
  - destruct (@binary_round_small false m) as (mz & ez & E & B & V); [lia|].
    rewrite E. exact (@integer_of_finite false m mz ez B V).
  - destruct (@binary_round_small true m) as (mz & ez & E & B & V); [lia|].
    rewrite E. exact (@integer_of_finite true m mz ez B V).
Qed.

End Durations.

(** X10.  For a valid track whose duration is below 2^53 seconds in
    magnitude, the duration handed to the native side is the duration of
    the track exactly: the conversion to [C.double] does not round. *)
Theorem X10_published_duration_is_exact {PS : Type} (w : World PS)
    (mp : ptr) (t : Track) :
  IsValid t = true ->
  (- 2 ^ 53 < GetDuration t < 2 ^ 53)%Z ->
  exists w' title artist art d,
    updateMetadata mp (Some t) w = Ok tt w' /\
    since w w' = [ENative (set_os_now_playing_info title artist art d)] /\
    integer_of_float d = Some (GetDuration t).
Proof.
  intros V B. rewrite updateMetadata_run. cbn [resolved_info]. rewrite V.
  do 5 eexists. split; [reflexivity|].
  split; [apply since_app; reflexivity|].
  apply double_of_int_exact. exact B.
Qed.

(** ** The further properties at sample inputs *)

Lemma play_is_recognised : In 0%Z (codes Sample.std_codes).
Proof.
  left. reflexivity.
Qed.

Lemma X2_witness :
  In 0%Z (codes Sample.std_codes) /\
  mpMediaEventRecipient (Sample.boot true) = None /\
  os_remote_command_callback Sample.std_codes 0 (double_of_int 0)
    (Sample.boot true) = Ok tt (Sample.boot true).
Proof.
  split; [exact play_is_recognised|]. split; [reflexivity|].
  exact (@X2_guarded_command_changes_nothing nat Sample.std_codes
           (Sample.boot true) 0 (double_of_int 0) play_is_recognised
           (or_introl eq_refl)).
Defined.

Lemma X3_witness :
  0%Z <> SEEK Sample.std_codes /\
  os_remote_command_callback Sample.std_codes 0 (double_of_int 0)
    Sample.registered_good
  = os_remote_command_callback Sample.std_codes 0 Sample.seconds_42_5
      Sample.registered_good.
Proof.
  assert (H : 0%Z <> SEEK Sample.std_codes) by discriminate.
  split; [exact H|].
  exact (@X3_payload_used_by_seek_only nat Sample.std_codes
           Sample.registered_good 0 (double_of_int 0) Sample.seconds_42_5 H).
Defined.



Lemma X7_witness :
  listeners_of (pid Sample.good_player) (listeners (Sample.boot true)) = [] /\
  exists w2 w3,
    RegisterMPMediaHandler (Some Sample.good_player) (Some 2)
      Sample.registered_good = Ok None w2 /\
    emit 7 Stopped w2 = Ok tt w3 /\
    native_calls (since w2 w3)
      = [set_os_playback_state_stopped; set_os_playback_state_stopped].
Proof.
  split; [reflexivity|].
  destruct (@X7_second_registration_doubles_events nat (Sample.boot true)
              Sample.good_player Sample.main_logger 2 eq_refl)
    as (w1 & w2 & w3 & E1 & E2 & _ & E3 & T).
  exists w2, w3.
  assert (H1 : w1 = Sample.registered_good).
  { unfold Sample.registered_good. rewrite E1. reflexivity. }
  rewrite <- H1. split; [exact E2|]. split; [exact E3|].
  rewrite T. reflexivity.
Defined.

Lemma X8_witness :
  NoDup (codes Sample.std_codes) /\
  command_maps_to Sample.std_codes Sample.good_player (double_of_int 0) 0
    CallPlay (Play Sample.good_player) "Play" /\
  exists w1 w2,
    RegisterMPMediaHandler (Some Sample.broken_player)
      (Some Sample.main_logger) (Sample.boot true) = Ok None w1 /\
    RegisterMPMediaHandler (Some Sample.good_player)
      (Some Sample.main_logger) w1 = Ok None w2 /\
    player_calls
      (since w2 (final (os_remote_command_callback Sample.std_codes 0
                          (double_of_int 0) w2)))
      = [(7, CallPlay)].
Proof.
  split; [exact std_codes_distinct|].
  split;
    [exact (maps_play Sample.std_codes Sample.good_player (double_of_int 0))|].
  destruct (@X8_commands_follow_the_last_registration nat Sample.std_codes
              (Sample.boot true) Sample.broken_player Sample.good_player
              (Some Sample.main_logger) (Some Sample.main_logger)
              (double_of_int 0) 0 CallPlay (Play Sample.good_player) "Play"
              std_codes_distinct
              (maps_play Sample.std_codes Sample.good_player (double_of_int 0)))
    as (w1 & w2 & E1 & E2 & P & _).
  exists w1, w2. split; [exact E1|]. split; [exact E2|exact P].
Defined.

Lemma X9_witness :
  In 0%Z (codes Sample.std_codes) /\
  exists w1,
    RegisterMPMediaHandler (None : ControlledPlayer nat)
      (Some Sample.main_logger) (Sample.boot true) = Panic w1 /\
    mpMediaEventRecipient w1 = Some 0 /\
    os_remote_command_callback Sample.std_codes 0 (double_of_int 0) w1
      = Ok tt w1.
Proof.
  split; [exact play_is_recognised|].
  destruct (@X9_registration_without_player_leaves_inert_handler nat
              Sample.std_codes (Sample.boot true) (Some Sample.main_logger)
              0 (double_of_int 0) play_is_recognised)
    as (w1 & E & R & _ & _ & _ & D).
  exists w1. split; [exact E|]. split; [exact R|exact D].
Defined.

(** The track A by B of 180 seconds. *)
Lemma X10_witness :
  IsValid Sample.track_AB = true /\
  (- 2 ^ 53 < GetDuration Sample.track_AB < 2 ^ 53)%Z /\
  exists w' title artist art d,
    updateMetadata 0 (Some Sample.track_AB) Sample.registered_good = Ok tt w' /\
    since Sample.registered_good w'
      = [ENative (set_os_now_playing_info title artist art d)] /\
    integer_of_float d = Some 180%Z.
Proof.
  assert (B : (- 2 ^ 53 < GetDuration Sample.track_AB < 2 ^ 53)%Z)
    by (split; reflexivity).
  split; [reflexivity|]. split; [exact B|].
  exact (@X10_published_duration_is_exact nat Sample.registered_good 0
           Sample.track_AB eq_refl B).
Defined.
